(** * Timeslide waveform generation: the rejection-sampling accumulation loop

    A shallow embedding of [main] of
    [projects/data/data/timeslide_waveforms/timeslide_waveforms.py].

    - numpy arrays are lists indexed along their first axis (one element
      per row); boolean-mask indexing and slice assignment are written
      out with the errors numpy raises on a shape mismatch.  Cells are
      opaque: agreement of the trailing axes (the waveform_size axis) is
      a contract of the collaborators and is not tracked.
    - Python dicts are insertion-ordered association lists with unique
      keys; [parameters] is a [defaultdict] whose factory copies [zeros].
    - SNR values and the other floating-point quantities are rationals,
      so the comparison [snrs >= snr_threshold] is a total order test.
    - the prior, the frame conversion, the waveform generator, the
      detector projection, the SNR evaluation, the seeding and the
      injection schedule are collaborators, gathered in a class.  The
      prior factory, the detector geometry, the PSDs and the generator's
      construction only feed those collaborators and are closed over;
      logging is left out.
    - exceptions and the unbounded [while] loop are explicit: a
      computation returns, raises, or runs out of fuel; what it did to
      the outside (samples drawn, waveforms generated, rows stored,
      files written) is logged in a trace that survives an exception. *)

From Stdlib Require Import String Ascii Bool Arith ZArith QArith Lia List.
From Stdlib Require Import Sorting.Sorted Permutation QArith.Qround.
Import ListNotations.

Local Close Scope Q_scope.
Local Open Scope string_scope.
Local Open Scope nat_scope.
Local Open Scope list_scope.

Set Implicit Arguments.

(** ** Values, arrays and dictionaries *)

Inductive value : Type :=
| Scalar (x : Q)
| Series (xs : list Q).

Definition column := list value.
Definition key := string.
Definition dict := list (key * column).

Fixpoint dict_get (k : key) (d : dict) : option column :=
  match d with
  | [] => None
  | (k', c) :: d' => if String.eqb k k' then Some c else dict_get k d'
  end.

(** [d[k] = c]: an existing key keeps its position, a new key goes last. *)
Fixpoint dict_set (k : key) (c : column) (d : dict) : dict :=
  match d with
  | [] => [(k, c)]
  | (k', c') :: d' =>
      if String.eqb k k' then (k', c) :: d' else (k', c') :: dict_set k c d'
  end.

Fixpoint dict_del (k : key) (d : dict) : dict :=
  match d with
  | [] => []
  | (k', c') :: d' =>
      if String.eqb k k' then d' else (k', c') :: dict_del k d'
  end.

Definition dict_keys (d : dict) : list key := map fst d.

Definition dict_mem (k : key) (d : dict) : bool :=
  match dict_get k d with Some _ => true | None => false end.

(** What a collaborator hands back is received as a Python dict: built
    pair by pair, a repeated key overwriting the earlier entry. *)
Definition as_dict (l : list (key * column)) : dict :=
  fold_left (fun d kc => dict_set (fst kc) (snd kc) d) l [].

(** ** Exceptions and outcomes *)

Inductive exn : Type :=
| KeyError (k : key)
| IndexError
| ValueError (msg : string)
| StopIteration
| FileNotFoundError
| ZeroDivisionError.

Inductive outcome (A : Type) : Type :=
| Returned (a : A)
| Raised (e : exn)
| OutOfFuel.

Arguments Raised {A} e.
Arguments OutOfFuel {A}.

Definition obind {A B} (o : outcome A) (f : A -> outcome B) : outcome B :=
  match o with
  | Returned a => f a
  | Raised e => Raised e
  | OutOfFuel => OutOfFuel
  end.

Declare Scope outcome_scope.
Delimit Scope outcome_scope with outcome.
Notation "x <~ c ;; k" := (obind c (fun x => k))
  (at level 61, c at next level, right associativity) : outcome_scope.

(** [d[k]] on a plain dict. *)
Definition getitem (d : dict) (k : key) : outcome column :=
  match dict_get k d with
  | Some c => Returned c
  | None => Raised (KeyError k)
  end.

(** ** numpy: boolean masks and slice assignment *)

Fixpoint select {A} (a : list A) (mask : list bool) : list A :=
  match a, mask with
  | x :: a', b :: mask' =>
      if b then x :: select a' mask' else select a' mask'
  | _, _ => []
  end.

(** [a[mask]]: the mask must have the length of the first axis. *)
Definition getitem_mask {A} (a : list A) (mask : list bool)
  : outcome (list A) :=
  if length a =? length mask then Returned (select a mask)
  else Raised IndexError.

(** [mask.sum()] *)
Definition count_true (mask : list bool) : nat :=
  length (filter (fun b => b) mask).

(** [a[start:stop]] for [0 <= start]. *)
Definition getslice {A} (a : list A) (start stop : nat) : list A :=
  firstn (stop - start) (skipn start a).

Definition broadcast_error : string :=
  "could not broadcast input array"%string.

(** [a[start:stop] = v]: the slice is clipped to the array; [v] must have
    the length of the slice, or length one (it is then broadcast). *)
Definition setitem_slice {A} (a : list A) (start stop : nat) (v : list A)
  : outcome (list A) :=
  let s := Nat.min start (length a) in
  let e := Nat.max s (Nat.min stop (length a)) in
  if length v =? e - s then Returned (firstn s a ++ v ++ skipn e a)
  else match v with
       | [x] => Returned (firstn s a ++ repeat x (e - s) ++ skipn e a)
       | _ => Raised (ValueError broadcast_error)
       end.

(** [projected[:, i]] *)
Fixpoint take_axis1 (rows : list (list value)) (i : nat) : outcome column :=
  match rows with
  | [] => Returned []
  | r :: rows' =>
      match nth_error r i with
      | Some x => (c <~ take_axis1 rows' i ;; Returned (x :: c))%outcome
      | None => Raised IndexError
      end
  end.

(** [str.lower] on ASCII detector prefixes. *)
Definition lower_ascii (c : ascii) : ascii :=
  let n := nat_of_ascii c in
  if (65 <=? n) && (n <=? 90) then ascii_of_nat (n + 32) else c.

Fixpoint lower (s : string) : string :=
  match s with
  | EmptyString => EmptyString
  | String c s' => String (lower_ascii c) (lower s')
  end.

(** ** The world: the prior's random state and a log of what was done *)

Record response_set : Type := {
  rs_columns : dict;
  rs_sample_rate : Q;
  rs_duration : Q;
  rs_num_injections : nat
}.

Inductive ledger : Type :=
| Responses (rs : response_set)   (* LigoResponseSet *)
| Injections (d : dict).          (* InjectionParameterSet *)

Inductive event : Type :=
| PriorSampled (k : nat)          (* prior.sample(k) *)
| WaveformsGenerated              (* generator(params) *)
| RowsStored (start stop : nat)   (* parameters[...][start:stop] = ... *)
| PsdsLoaded (path : string)      (* utils.load_psds(background_path, ...) *)
| FileWritten (fname : string) (content : ledger).
                                  (* utils.io_with_blocking(_.write, fname) *)

(** ** Collaborators and configuration *)

(** The subsystems [main] calls: the prior (with its random state), the
    frame conversion, the waveform generator, the detector projection,
    the SNR evaluation (detector geometry, PSDs, sample rate and highpass
    are fixed for a run and closed over), the seeding and the injection
    schedule. *)
Class Collaborators : Type := {
  rng : Type;
  prior_sample : rng -> nat -> list (key * column) * rng;
  detector_frame_prior : bool;
  convert_to_detector_frame : dict -> list (key * column);
  waveforms : Type;
  generator : dict -> waveforms;
  compute_observed_strain :
    column -> column -> column -> waveforms -> list (list value);
  compute_network_snr : list (list value) -> list Q;
  seed_worker : Q -> Q -> list Q -> Z -> rng -> rng;
  calc_segment_injection_times : Q -> Q -> Q -> Q -> Q -> list Q;
  (** [InjectionParameterSet.__dataclass_fields__]; the class is declared
      in [ledger.injections]. *)
  reject_fields : list key
}.

(** A directory on disk: its path and, when it exists, its entries. *)
Record directory : Type := {
  dir_path : string;
  dir_entries : option (list string)
}.

(** The arguments of [main]. *)
Record config : Type := {
  start : Q;
  stop : Q;
  ifos : list string;
  shifts : list Q;
  background_dir : directory;
  spacing : Q;
  buffer : Q;
  sample_rate : Q;
  waveform_duration : Q;
  snr_threshold : Q;
  output_dir : string;
  seed : option Z
}.

Section Accumulation.

Context {E : Collaborators}.
Variable cfg : config.

Record world : Type := {
  w_rng : rng;
  w_trace : list event
}.

Definition M (A : Type) : Type := world -> outcome A * world.

Definition ret {A} (a : A) : M A := fun w => (Returned a, w).

Definition bind {A B} (c : M A) (f : A -> M B) : M B :=
  fun w =>
    match c w with
    | (Returned a, w') => f a w'
    | (Raised e, w') => (Raised e, w')
    | (OutOfFuel, w') => (OutOfFuel, w')
    end.

Definition raise {A} (e : exn) : M A := fun w => (Raised e, w).

Definition lift {A} (o : outcome A) : M A := fun w => (o, w).

Definition log (e : event) : M unit :=
  fun w => (Returned tt, {| w_rng := w_rng w; w_trace := w_trace w ++ [e] |}).

Declare Scope run_scope.
Delimit Scope run_scope with run.
Notation "x <- c ;; k" := (bind c (fun x => k))
  (at level 61, c at next level, right associativity) : run_scope.
Notation "c ;;; k" := (bind c (fun _ => k))
  (at level 61, right associativity) : run_scope.

(** *** Loop state *)

Record loop_state : Type := {
  parameters : dict;        (* Accepted storage *)
  n_samples : Z;            (* rows still to fill *)
  idx : nat;                (* write offset *)
  num_injections : nat;     (* candidates drawn so far *)
  rejected_params : dict    (* Rejected storage, one column per field *)
}.

Section Loop.

(** The array copied by the factory of [parameters]. *)
Variable zeros : column.

(** [{k: params[k] for k in parameters if k in params}] *)
Fixpoint restrict (params : dict) (parameters : dict) : dict :=
  match parameters with
  | [] => []
  | (k, _) :: rest =>
      match dict_get k params with
      | Some c => (k, c) :: restrict params rest
      | None => restrict params rest
      end
  end.

(** Lines 157-159: draw [k] candidates in the detector frame. *)
Definition sample_detector_frame (r : rng) (k : nat) : dict * rng :=
  let '(raw, r') := prior_sample r k in
  let params := as_dict raw in
  (if detector_frame_prior then params
   else as_dict (convert_to_detector_frame params), r').

(** Lines 157-168: draw [n_samples] candidates and filter their keys
    when exactly one was drawn. *)
Definition draw_candidates (st : loop_state) : M dict :=
  fun w =>
    let k := Z.to_nat (n_samples st) in
    let '(params, r) := sample_detector_frame (w_rng w) k in
    let params :=
      if (n_samples st =? 1)%Z then restrict params (parameters st)
      else params in
    (Returned params,
     {| w_rng := r; w_trace := w_trace w ++ [PriorSampled k] |}).

Record batch : Type := {
  b_params : dict;                  (* candidates, with their "snr" *)
  b_projected : list (list value);  (* per candidate, per detector *)
  b_snrs : list Q
}.

(** Lines 170-190: waveforms, projection, network SNR. *)
Definition evaluate (params : dict) : M batch :=
  (let wf := generator params in
   log WaveformsGenerated ;;;
   dec <- lift (getitem params "dec") ;;
   psi <- lift (getitem params "psi") ;;
   ra <- lift (getitem params "ra") ;;
   let projected := compute_observed_strain dec psi ra wf in
   let snrs := compute_network_snr projected in
   ret {| b_params := dict_set "snr" (map Scalar snrs) params;
          b_projected := projected;
          b_snrs := snrs |})%run.

(** [snrs >= snr_threshold] *)
Definition threshold_mask (snrs : list Q) : list bool :=
  map (fun s => Qle_bool (snr_threshold cfg) s) snrs.

(** Lines 196-198: [rejected[key] = params[key][~mask]] for every field. *)
Fixpoint collect_rejected (fields : list key) (params : dict)
    (notmask : list bool) (rejected : dict) : outcome dict :=
  match fields with
  | [] => Returned rejected
  | key :: rest =>
      (c <~ getitem params key ;;
       r <~ getitem_mask c notmask ;;
       collect_rejected rest params notmask (dict_set key r rejected))%outcome
  end.

(** Modelled from the spec: [InjectionParameterSet()] is the empty
    Rejected storage, one empty column per declared field; the class
    lives in [ledger.injections]. *)
Definition empty_ledger : dict := map (fun k => (k, [])) reject_fields.

(** Modelled from the spec: [Ledger.append] (in [ledger.injections])
    appends the other set's rows, field by field. *)
Definition ledger_append (ours theirs : dict) : dict :=
  map (fun kc =>
         (fst kc,
          snd kc ++ match dict_get (fst kc) theirs with
                    | Some c => c
                    | None => []
                    end)) ours.

(** [parameters[key][start:stop] = v] on the defaultdict. *)
Definition store (params_out : dict) (k : key) (start stop : nat)
    (v : column) : outcome dict :=
  let arr := match dict_get k params_out with
             | Some a => a
             | None => zeros
             end in
  (arr' <~ setitem_slice arr start stop v ;;
   Returned (dict_set k arr' params_out))%outcome.

(** Lines 209-210. *)
Fixpoint store_params (items : dict) (mask : list bool) (start stop : nat)
    (params_out : dict) : outcome dict :=
  match items with
  | [] => Returned params_out
  | (k, v) :: rest =>
      (sel <~ getitem_mask v mask ;;
       out <~ store params_out k start stop sel ;;
       store_params rest mask start stop out)%outcome
  end.

(** Lines 214-216, from detector number [i] on. *)
Fixpoint store_strain (dets : list string) (i : nat)
    (projected : list (list value)) (start stop : nat)
    (params_out : dict) : outcome dict :=
  match dets with
  | [] => Returned params_out
  | ifo :: rest =>
      (c <~ take_axis1 projected i ;;
       out <~ store params_out (lower ifo) start stop c ;;
       store_strain rest (S i) projected start stop out)%outcome
  end.

(** Lines 207-216. *)
Definition store_accepted (b : batch) (mask : list bool)
    (start stop : nat) (params_out : dict) : outcome dict :=
  (out <~ store_params (b_params b) mask start stop params_out ;;
   projected <~ getitem_mask (b_projected b) mask ;;
   store_strain (ifos cfg) 0 projected start stop out)%outcome.

(** Lines 191-224, once the batch has been evaluated. *)
Definition partition_batch (st : loop_state) (b : batch) : M loop_state :=
  (let total := num_injections st + length (b_snrs b) in
   let mask := threshold_mask (b_snrs b) in
   rejected <- lift (collect_rejected reject_fields (b_params b)
                       (map negb mask) []) ;;
   let rejects := ledger_append (rejected_params st) rejected in
   let num_accepted := count_true mask in
   if num_accepted =? 0 then
     ret {| parameters := parameters st;
            n_samples := n_samples st;
            idx := idx st;
            num_injections := total;
            rejected_params := rejects |}
   else
     let start := idx st in
     let stop := idx st + num_accepted in
     out <- lift (store_accepted b mask start stop (parameters st)) ;;
     log (RowsStored start stop) ;;;
     ret {| parameters := out;
            n_samples := n_samples st - Z.of_nat num_accepted;
            idx := idx st + num_accepted;
            num_injections := total;
            rejected_params := rejects |})%run.

(** One pass through the body of [while n_samples > 0]. *)
Definition loop_body (st : loop_state) : M loop_state :=
  (params <- draw_candidates st ;;
   b <- evaluate params ;;
   partition_batch st b)%run.

(** The loop, cut off after [fuel] iterations. *)
Fixpoint accumulate (fuel : nat) (st : loop_state) : M loop_state :=
  if (0 <? n_samples st)%Z then
    match fuel with
    | 0 => fun w => (OutOfFuel, w)
    | S fuel' => (st' <- loop_body st ;; accumulate fuel' st')%run
    end
  else ret st.


End Loop.

(** *** Setup and finalisation *)

(** [max(shifts)] *)
Definition py_max (l : list Q) : outcome Q :=
  match l with
  | [] => Raised (ValueError "max() arg is an empty sequence")
  | x :: l' =>
      Returned (fold_left (fun m y => if Qle_bool y m then m else y) l' x)
  end.

(** [int(x)]: truncation towards zero. *)
Definition py_int (x : Q) : Z := Z.quot (Qnum x) (Zpos (Qden x)).

(** Lines 126-128. *)
Fixpoint init_strain (dets : list string) (n : nat) (size : Z)
    (params_out : dict) : outcome dict :=
  match dets with
  | [] => Returned params_out
  | ifo :: rest =>
      if (size <? 0)%Z then
        Raised (ValueError "negative dimensions are not allowed")
      else
        let empty := repeat (Series (repeat 0%Q (Z.to_nat size))) n in
        init_strain rest n size (dict_set (lower ifo) empty params_out)
  end.

Definition path_join (dir name : string) : string :=
  String.append dir (String.append "/" name).

Definition iterdir (d : directory) : outcome (list string) :=
  match dir_entries d with
  | Some names => Returned (map (path_join (dir_path d)) names)
  | None => Raised FileNotFoundError
  end.

Fixpoint insert_sorted (x : string) (l : list string) : list string :=
  match l with
  | [] => [x]
  | y :: l' => if String.leb x y then x :: l else y :: insert_sorted x l'
  end.

Definition sorted (l : list string) : list string :=
  fold_right insert_sorted [] l.

(** [l[0]] *)
Definition first_item {A} (l : list A) : outcome A :=
  match l with
  | [] => Raised IndexError
  | x :: _ => Returned x
  end.

Definition is_StopIteration (e : exn) : bool :=
  match e with StopIteration => true | _ => false end.

(** [try: body except <caught>: handler] *)
Definition try_except {A} (body : outcome A) (caught : exn -> bool)
    (handler : outcome A) : outcome A :=
  match body with
  | Raised e => if caught e then handler else Raised e
  | o => o
  end.

Definition no_files_message (d : directory) : string :=
  String.append "No files in background data directory " (dir_path d).

(** Line 133. *)
Definition first_sorted_entry (d : directory) : outcome string :=
  (l <~ iterdir d ;; first_item (sorted l))%outcome.

(** Lines 132-137. *)
Definition background_path (d : directory) : outcome string :=
  try_except (first_sorted_entry d) is_StopIteration
    (Raised (ValueError (no_files_message d))).

(** Lines 121-128: the preallocated Accepted storage. *)
Definition initial_parameters (injection_times : list Q) (sh : list Q)
    (waveform_size : Z) : outcome dict :=
  let n := length injection_times in
  let p := dict_set "gps_time" (map Scalar injection_times) [] in
  let p := dict_set "shift" (repeat (Series sh) n) p in
  init_strain (ifos cfg) n waveform_size p.

Definition initial_state (p : dict) (n : nat) : loop_state :=
  {| parameters := p;
     n_samples := Z.of_nat n;
     idx := 0;
     num_injections := 0;
     rejected_params := empty_ledger |}.

(** Lines 226-230: the three scalars replace any column of their name. *)
Definition finalize (st : loop_state) : response_set :=
  {| rs_columns :=
       dict_del "num_injections"
         (dict_del "duration" (dict_del "sample_rate" (parameters st)));
     rs_sample_rate := sample_rate cfg;
     rs_duration := waveform_duration cfg;
     rs_num_injections := num_injections st |}.

Definition main (fuel : nat) : M (string * string) :=
  ((fun w =>
      match seed cfg with
      | Some s =>
          (Returned tt,
           {| w_rng := seed_worker (start cfg) (stop cfg) (shifts cfg) s
                         (w_rng w);
              w_trace := w_trace w |})
      | None => (Returned tt, w)
      end) ;;;
   m <- lift (py_max (shifts cfg)) ;;
   let injection_times :=
     calc_segment_injection_times (start cfg) (stop cfg - m)%Q
       (spacing cfg) (buffer cfg) (waveform_duration cfg) in
   let n := length injection_times in
   let waveform_size := py_int (sample_rate cfg * waveform_duration cfg)%Q in
   let zeros := repeat (Scalar 0%Q) n in
   p <- lift (initial_parameters injection_times (shifts cfg)
                waveform_size) ;;
   df <- lift (if Qeq_bool (waveform_duration cfg) 0%Q
               then Raised ZeroDivisionError
               else Returned (1 / waveform_duration cfg)%Q) ;;
   bg <- lift (background_path (background_dir cfg)) ;;
   log (PsdsLoaded bg) ;;;
   st <- accumulate zeros fuel (initial_state p n) ;;
   let waveform_fname := path_join (output_dir cfg) "waveforms.h5" in
   log (FileWritten waveform_fname (Responses (finalize st))) ;;;
   let rejected_fname :=
     path_join (output_dir cfg) "rejected-parameters.h5" in
   log (FileWritten rejected_fname (Injections (rejected_params st))) ;;;
   ret (waveform_fname, rejected_fname))%run.

End Accumulation.

(** ** A small run: two detectors, SNR read off the first mass *)

Module Demo.

Definition masses (call k : nat) : column :=
  map (fun j => Scalar (inject_Z (Z.of_nat (10 * call + j)))) (seq 0 k).

Definition angles (x : Q) (k : nat) : column := repeat (Scalar x) k.

(** A draw of one candidate carries a derived key, as Bilby's does. *)
Definition draw (call k : nat) : list (key * column) * nat :=
  ([("mass_1", masses call k); ("dec", angles (1 # 2) k);
    ("psi", angles (1 # 3) k); ("ra", angles (1 # 4) k)]
     ++ (if k =? 1 then [("chirp_mass", masses call k)] else []),
   S call).

Definition scalar_of (v : value) : Q :=
  match v with Scalar x => x | Series _ => 0%Q end.

Definition head_of (v : value) : Q :=
  match v with Scalar x => x | Series xs => hd 0%Q xs end.

#[local] Instance collaborators : Collaborators := {|
  rng := nat;
  prior_sample := draw;
  detector_frame_prior := true;
  convert_to_detector_frame := fun d => d;
  waveforms := list Q;
  generator := fun params =>
    match dict_get "mass_1" params with
    | Some c => map scalar_of c
    | None => []
    end;
  compute_observed_strain := fun dec _ _ wf =>
    map (fun i => let m := nth i wf 0%Q in
                  [Series [m; m]; Series [m; (m + 1)%Q]])
      (seq 0 (length dec));
  compute_network_snr := fun projected =>
    map (fun row => head_of (hd (Scalar 0%Q) row)) projected;
  seed_worker := fun _ _ _ s _ => Z.to_nat s;
  calc_segment_injection_times := fun a b _ _ _ =>
    map (fun j => (a + inject_Z (Z.of_nat j))%Q)
      (seq 0 (Z.to_nat (Qfloor (b - a)%Q)));
  reject_fields := ["mass_1"; "dec"; "psi"; "ra"; "snr"]
|}.

Definition settings (stop_time threshold : Q) (entries : option (list string))
  : config :=
  {| start := 0%Q;
     stop := stop_time;
     ifos := ["H1"; "L1"];
     shifts := [0%Q; 1%Q];
     background_dir := {| dir_path := "bg"; dir_entries := entries |};
     spacing := 1%Q;
     buffer := 0%Q;
     sample_rate := 2%Q;
     waveform_duration := 1%Q;
     snr_threshold := threshold;
     output_dir := "out";
     seed := None |}.

Definition fresh : world := {| w_rng := 0; w_trace := [] |}.

(** Three injections, threshold 11: the first batch is rejected whole,
    the second yields two rows, the third (a single draw) the last. *)
Definition cfg3 : config := settings 4 11 (Some ["b"; "a"]).
Definition times3 : list Q := [0%Q; 1%Q; 2%Q].
Definition size3 : Z := 2%Z.

Definition stored3 : dict :=
  match initial_parameters cfg3 times3 (shifts cfg3) size3 with
  | Returned p => p
  | _ => []
  end.

Definition zeros3 : column := repeat (Scalar 0%Q) (length times3).
Definition state3 : loop_state := initial_state stored3 (length times3).

Definition run3 : outcome loop_state * world :=
  accumulate cfg3 zeros3 10 state3 fresh.

Definition final3 : loop_state :=
  match fst run3 with
  | Returned st => st
  | _ => state3
  end.

Definition no_batch : batch :=
  {| b_params := []; b_projected := []; b_snrs := [] |}.

(** The batch of an iteration entered in state [st] and world [w]. *)
Definition candidates_at (st : loop_state) (w : world) : dict :=
  match fst (draw_candidates st w) with
  | Returned params => params
  | _ => []
  end.

Definition batch_at (st : loop_state) (w : world) : batch :=
  match fst (evaluate (candidates_at st w) (snd (draw_candidates st w))) with
  | Returned b => b
  | _ => no_batch
  end.

Definition evaluated_at (st : loop_state) (w : world) : world :=
  snd (evaluate (candidates_at st w) (snd (draw_candidates st w))).

(** The world in which the prior is about to make its second draw. *)
Definition second : world := {| w_rng := 1; w_trace := [] |}.

Definition next3 : loop_state :=
  match fst (loop_body cfg3 zeros3 state3 second) with
  | Returned st => st
  | _ => state3
  end.

(** One injection only: the first iteration is a single draw. *)
Definition cfg1 : config := settings 2 11 (Some ["a"]).
Definition times1 : list Q := [0%Q].

Definition stored1 : dict :=
  match initial_parameters cfg1 times1 (shifts cfg1) size3 with
  | Returned p => p
  | _ => []
  end.

Definition state1 : loop_state := initial_state stored1 (length times1).

(** The same run with an empty background directory. *)
Definition cfg_empty : config := settings 4 11 (Some []).

(** Collaborators whose every SNR is zero, under a threshold of one. *)
Definition silent : Collaborators := {|
  rng := nat;
  prior_sample := draw;
  detector_frame_prior := true;
  convert_to_detector_frame := fun d => d;
  waveforms := list Q;
  generator := @generator collaborators;
  compute_observed_strain := @compute_observed_strain collaborators;
  compute_network_snr := fun projected => map (fun _ => 0%Q) projected;
  seed_worker := fun _ _ _ s _ => Z.to_nat s;
  calc_segment_injection_times := @calc_segment_injection_times collaborators;
  reject_fields := ["mass_1"; "dec"; "psi"; "ra"; "snr"]
|}.


Definition fresh_silent : @world silent := @Build_world silent 0 [].

Definition state_silent : loop_state :=
  @initial_state silent stored3 (length times3).

End Demo.

(** ** Configurations at the edges *)

Module Edge.

Definition with_setup (sh : list Q) (rate duration : Q) : config :=
  {| start := 0%Q;
     stop := 4%Q;
     ifos := ["H1"; "L1"];
     shifts := sh;
     background_dir := {| dir_path := "bg"; dir_entries := Some ["a"] |};
     spacing := 1%Q;
     buffer := 0%Q;
     sample_rate := rate;
     waveform_duration := duration;
     snr_threshold := 11%Q;
     output_dir := "out";
     seed := None |}.

Definition no_shifts : config := with_setup [] 2 1.
Definition zero_duration : config := with_setup [0%Q; 1%Q] 2 0.
Definition negative_size : config := with_setup [0%Q; 1%Q] (-2) 1.

(** A segment too short for a single injection. *)
Definition empty_schedule : config := Demo.settings 1 11 (Some ["b"; "a"]).

(** A threshold every SNR of [Demo.silent] reaches. *)
Definition all_accepted : config := Demo.settings 4 0 (Some ["a"]).

End Edge.

(** ** Vocabulary of the properties *)

(** Every column of the storage has [n] rows. *)
Definition preallocated (n : nat) (d : dict) : Prop :=
  Forall (fun kc => length (snd kc) = n) d.

(** The rows a trace records as stored, in the order they were stored. *)
Fixpoint rows_stored (t : list event) : list nat :=
  match t with
  | [] => []
  | RowsStored a b :: t' => seq a (b - a) ++ rows_stored t'
  | _ :: t' => rows_stored t'
  end.

(** The batch sizes a trace records as requested from the prior. *)
Fixpoint batches_requested (t : list event) : list nat :=
  match t with
  | [] => []
  | PriorSampled k :: t' => k :: batches_requested t'
  | _ :: t' => batches_requested t'
  end.

(** Read from write offset [offset] on, a trace respects the bound [n]:
    each request asks for the [n - offset] rows still unfilled, each
    store starts at the offset and ends within the [n] rows. *)
Fixpoint within_bound (n offset : nat) (t : list event) : Prop :=
  match t with
  | [] => True
  | PriorSampled k :: t' => k = n - offset /\ within_bound n offset t'
  | RowsStored a b :: t' =>
      a = offset /\ a < b /\ b <= n /\ within_bound n b t'
  | _ :: t' => within_bound n offset t'
  end.

(** The write offset a trace leaves behind. *)
Fixpoint offset_after (offset : nat) (t : list event) : nat :=
  match t with
  | [] => offset
  | RowsStored _ b :: t' => offset_after b t'
  | _ :: t' => offset_after offset t'
  end.

(** [np.flatnonzero(mask)], counted from [i]. *)
Fixpoint mask_indices (i : nat) (mask : list bool) : list nat :=
  match mask with
  | [] => []
  | b :: mask' =>
      if b then i :: mask_indices (S i) mask' else mask_indices (S i) mask'
  end.



(** An array with [v] written over its rows from [start] on. *)
Definition overwritten (arr : column) (start : nat) (v : column) : column :=
  firstn start arr ++ v ++ skipn (start + length v) arr.

(** The column [parameters[key]] stands for, the factory applied. *)
Definition column_of (zeros : column) (p : dict) (k : key) : column :=
  match dict_get k p with
  | Some a => a
  | None => zeros
  end.

Section Invariants.

Context {E : Collaborators}.
Variable cfg : config.
Variable zeros : column.

(** What holds between iterations: offset and deficit add up to the
    [n] preallocated rows, and every column keeps [n] rows. *)
Definition loop_inv (n : nat) (st : loop_state) : Prop :=
  (Z.of_nat (idx st) + n_samples st = Z.of_nat n)%Z /\
  (0 <= n_samples st)%Z /\
  preallocated n (parameters st) /\
  NoDup (dict_keys (parameters st)).



(** Rejected has the declared fields, and every field has as many rows
    as candidates were drawn and not accepted. *)
Definition ledger_inv (st : loop_state) : Prop :=
  dict_keys (rejected_params st) = reject_fields /\
  Forall (fun kc => idx st + length (snd kc) = num_injections st)
    (rejected_params st).

(** The contract of the collaborators on a batch: a draw of [k]
    candidates carries the sky angles and every declared field, each
    with [k] rows, and the evaluation returns one SNR per candidate. *)
Definition batch_contract : Prop :=
  (forall r k f,
     In f ("dec" :: "psi" :: "ra" :: reject_fields) -> f <> "snr" ->
     exists c, dict_get f (fst (sample_detector_frame r k)) = Some c /\
               length c = k) /\
  (forall dec psi ra wf,
     length (compute_network_snr (compute_observed_strain dec psi ra wf))
     = length dec).

(** The contract of the collaborators on shapes: every column of a draw
    of [k] candidates has [k] rows, and the projection returns one row
    per candidate with an entry for every detector. *)
Definition shape_contract : Prop :=
  (forall r k,
     Forall (fun kc => length (snd kc) = k)
       (fst (sample_detector_frame r k))) /\
  (forall dec psi ra wf,
     length (compute_observed_strain dec psi ra wf) = length dec /\
     Forall (fun row => length (ifos cfg) <= length row)
       (compute_observed_strain dec psi ra wf)).

(** Accepted already has a column for every field an iteration reads. *)
Definition fields_stored (st : loop_state) : Prop :=
  forall f,
    In f ("dec" :: "psi" :: "ra" :: reject_fields) -> f <> "snr" ->
    dict_mem f (parameters st) = true.

(** The states the loop passes through at the top of its body. *)
Inductive reachable (st0 : loop_state) (w0 : world)
  : loop_state -> world -> Prop :=
| reach_start : reachable st0 w0 st0 w0
| reach_step st w st' w' :
    reachable st0 w0 st w ->
    (0 < n_samples st)%Z ->
    loop_body cfg zeros st w = (Returned st', w') ->
    reachable st0 w0 st' w'.

End Invariants.

(** ** Vocabulary of the further properties *)


(** The files a trace records as written, in order. *)
Fixpoint files_written (t : list event) : list string :=
  match t with
  | [] => []
  | FileWritten f _ :: t' => f :: files_written t'
  | _ :: t' => files_written t'
  end.



Definition leb_true (a b : string) : Prop := String.leb a b = true.

(** * Properties *)

(** ** Dictionaries *)

Lemma dict_get_set_eq k c d : dict_get k (dict_set k c d) = Some c.
Proof.
  induction d as [|[k' c'] d IH]; simpl.
  - now rewrite String.eqb_refl.
  - destruct (String.eqb k k') eqn:Hk; simpl; rewrite Hk; auto.
Qed.

Lemma dict_get_set_ne k k' c d :
  k <> k' -> dict_get k' (dict_set k c d) = dict_get k' d.
Proof.
  intros Hne. induction d as [|[k0 c0] d IH]; simpl.
  - destruct (String.eqb k' k) eqn:Hk; auto.
    apply String.eqb_eq in Hk. congruence.
  - destruct (String.eqb k k0) eqn:Hk; simpl.
    + apply String.eqb_eq in Hk. subst k0.
      destruct (String.eqb k' k) eqn:Hk'; auto.
      apply String.eqb_eq in Hk'. congruence.
    + now rewrite IH.
Qed.

Lemma dict_get_del_ne k k' d :
  k <> k' -> dict_get k' (dict_del k d) = dict_get k' d.
Proof.
  intros Hne. induction d as [|[k0 c0] d IH]; simpl; auto.
  destruct (String.eqb k k0) eqn:Hk; simpl.
  - apply String.eqb_eq in Hk. subst k0.
    destruct (String.eqb k' k) eqn:Hk'; auto.
    apply String.eqb_eq in Hk'. congruence.
  - now rewrite IH.
Qed.

Lemma dict_get_None_keys k d :
  dict_get k d = None <-> ~ In k (dict_keys d).
Proof.
  induction d as [|[k' c'] d IH]; simpl.
  - tauto.
  - destruct (String.eqb k k') eqn:Hk.
    + apply String.eqb_eq in Hk. subst. split; [discriminate | tauto].
    + apply String.eqb_neq in Hk. rewrite IH. split.
      * intros H [H1 | H1]; [congruence | tauto].
      * tauto.
Qed.

Lemma dict_get_Some_keys k d c :
  dict_get k d = Some c -> In k (dict_keys d).
Proof.
  intros H. destruct (in_dec string_dec k (dict_keys d)) as [Hin | Hin]; auto.
  apply dict_get_None_keys in Hin. congruence.
Qed.

Lemma dict_get_In k d c : dict_get k d = Some c -> In (k, c) d.
Proof.
  induction d as [|[k' c'] d IH]; simpl; [discriminate|].
  destruct (String.eqb k k') eqn:Hk.
  - apply String.eqb_eq in Hk. intros [= ->]. subst. now left.
  - auto.
Qed.

Lemma dict_In_get k c d :
  NoDup (dict_keys d) -> In (k, c) d -> dict_get k d = Some c.
Proof.
  induction d as [|[k' c'] d IH]; simpl; [tauto|].
  intros Hnd [H | H].
  - injection H as -> ->. now rewrite String.eqb_refl.
  - inversion Hnd as [|? ? Hnotin Hnd']; subst.
    destruct (String.eqb k k') eqn:Hk; auto.
    apply String.eqb_eq in Hk. subst k'.
    exfalso. apply Hnotin. change k with (fst (k, c)). now apply in_map.
Qed.

Lemma dict_keys_set k c d :
  dict_keys (dict_set k c d) =
  if dict_mem k d then dict_keys d else dict_keys d ++ [k].
Proof.
  unfold dict_mem. induction d as [|[k' c'] d IH]; simpl; auto.
  destruct (String.eqb k k') eqn:Hk; simpl; auto.
  rewrite IH. now destruct (dict_get k d).
Qed.

Lemma dict_set_NoDup k c d :
  NoDup (dict_keys d) -> NoDup (dict_keys (dict_set k c d)).
Proof.
  intros Hnd. rewrite dict_keys_set. unfold dict_mem.
  destruct (dict_get k d) eqn:Hg; auto.
  apply dict_get_None_keys in Hg.
  apply NoDup_app; auto.
  - repeat constructor. simpl. tauto.
  - intros x Hx [Hx' | []]. subst. tauto.
Qed.

Lemma as_dict_NoDup l : NoDup (dict_keys (as_dict l)).
Proof.
  unfold as_dict.
  assert (H : forall d, NoDup (dict_keys d) ->
            NoDup (dict_keys (fold_left
              (fun d kc => dict_set (fst kc) (snd kc) d) l d))).
  { induction l as [|kc l IH]; simpl; auto.
    intros d Hd. apply IH. now apply dict_set_NoDup. }
  apply H. constructor.
Qed.

Lemma dict_set_Forall (P : column -> Prop) k c d :
  P c -> Forall (fun kc => P (snd kc)) d ->
  Forall (fun kc => P (snd kc)) (dict_set k c d).
Proof.
  intros Hc. induction d as [|[k' c'] d IH]; simpl; intros Hd.
  - now repeat constructor.
  - inversion Hd; subst. destruct (String.eqb k k'); constructor; auto.
Qed.

Lemma dict_get_Forall (P : column -> Prop) k c d :
  Forall (fun kc => P (snd kc)) d -> dict_get k d = Some c -> P c.
Proof.
  intros Hd Hg. apply dict_get_In in Hg.
  rewrite Forall_forall in Hd. exact (Hd _ Hg).
Qed.

(** ** Masks and slices *)

Lemma length_select {A} (a : list A) mask :
  length a = length mask -> length (select a mask) = count_true mask.
Proof.
  unfold count_true. revert mask.
  induction a as [|x a IH]; intros [|b mask]; simpl; try discriminate; auto.
  intros [= H]. destruct b; simpl; auto.
Qed.

Lemma count_true_le mask : count_true mask <= length mask.
Proof. unfold count_true. apply filter_length_le. Qed.

Lemma count_true_negb mask :
  count_true mask + count_true (map negb mask) = length mask.
Proof.
  unfold count_true. induction mask as [|[|] mask IH]; simpl; lia.
Qed.

Lemma count_true_0 mask :
  count_true mask = 0 -> map negb mask = repeat true (length mask).
Proof.
  unfold count_true.
  induction mask as [|[|] mask IH]; simpl; try discriminate; auto.
  intros H. now rewrite IH.
Qed.

Lemma select_all {A} (a : list A) : select a (repeat true (length a)) = a.
Proof. induction a; simpl; congruence. Qed.

Lemma getitem_mask_inv {A} (a : list A) mask r :
  getitem_mask a mask = Returned r ->
  length a = length mask /\ r = select a mask.
Proof.
  unfold getitem_mask. destruct (length a =? length mask) eqn:H.
  - apply Nat.eqb_eq in H. now intros [= <-].
  - discriminate.
Qed.

Lemma setitem_slice_length {A} (a : list A) start stop v a' :
  setitem_slice a start stop v = Returned a' -> length a' = length a.
Proof.
  unfold setitem_slice.
  set (s := Nat.min start (length a)).
  set (e := Nat.max s (Nat.min stop (length a))).
  assert (Hs : s <= length a) by (unfold s; lia).
  assert (He : s <= e <= length a) by (unfold e; lia).
  destruct (length v =? e - s) eqn:Hv.
  - apply Nat.eqb_eq in Hv. intros [= <-].
    rewrite !length_app, length_firstn, length_skipn. lia.
  - destruct v as [|x [|y v]]; try discriminate. intros [= <-].
    rewrite !length_app, length_firstn, length_skipn, repeat_length. lia.
Qed.

(** A slice assignment that succeeded inside the array wrote exactly
    [length v] rows. *)
Lemma setitem_slice_fits {A} (a : list A) start stop v a' :
  start < length a -> start <= stop ->
  setitem_slice a start stop v = Returned a' ->
  start + length v <= length a.
Proof.
  unfold setitem_slice. intros Hs Hle.
  replace (Nat.min start (length a)) with start by lia.
  destruct (length v =? _) eqn:Hv.
  - apply Nat.eqb_eq in Hv. intros _. lia.
  - destruct v as [|x [|y v]]; try discriminate. intros _. simpl. lia.
Qed.

Lemma setitem_slice_exact {A} (a : list A) start v :
  start + length v <= length a ->
  setitem_slice a start (start + length v) v =
  Returned (firstn start a ++ v ++ skipn (start + length v) a).
Proof.
  unfold setitem_slice. intros H.
  replace (Nat.min start (length a)) with start by lia.
  replace (Nat.max start (Nat.min (start + length v) (length a)))
    with (start + length v) by lia.
  replace (start + length v - start) with (length v) by lia.
  now rewrite Nat.eqb_refl.
Qed.

Lemma getslice_written {A} (a v : list A) start :
  start <= length a ->
  getslice (firstn start a ++ v ++ skipn (start + length v) a)
    start (start + length v) = v.
Proof.
  intros H. unfold getslice.
  rewrite skipn_app, length_firstn.
  replace (Nat.min start (length a)) with start by lia.
  rewrite skipn_all2 by (rewrite length_firstn; lia).
  replace (start - start) with 0 by lia. simpl.
  replace (start + length v - start) with (length v) by lia.
  rewrite firstn_app, Nat.sub_diag, firstn_all. simpl.
  now rewrite app_nil_r.
Qed.

(** ** The monad *)

Section Runs.

Context {E : Collaborators}.

Lemma bind_Returned {A B} (c : M A) (f : A -> M B) w b w' :
  bind c f w = (Returned b, w') ->
  exists a w1, c w = (Returned a, w1) /\ f a w1 = (Returned b, w').
Proof.
  unfold bind. destruct (c w) as [[a | e |] w1]; try discriminate.
  intros H. now exists a, w1.
Qed.

Lemma lift_Returned {A} (o : outcome A) w a w' :
  lift o w = (Returned a, w') -> o = Returned a /\ w' = w.
Proof. unfold lift. now intros [= -> ->]. Qed.

Lemma obind_Returned {A B} (o : outcome A) (f : A -> outcome B) b :
  obind o f = Returned b -> exists a, o = Returned a /\ f a = Returned b.
Proof. destruct o; simpl; try discriminate. intros H. now exists a. Qed.

Lemma getitem_Returned d k c :
  getitem d k = Returned c -> dict_get k d = Some c.
Proof. unfold getitem. destruct (dict_get k d); now intros [= ->]. Qed.

End Runs.

(** ** Writing into the preallocated storage *)

Lemma overwritten_slice arr start v :
  start <= length arr ->
  getslice (overwritten arr start v) start (start + length v) = v.
Proof. apply getslice_written. Qed.

Lemma overwritten_before arr start v :
  start <= length arr -> firstn start (overwritten arr start v) = firstn start arr.
Proof.
  intros H. unfold overwritten.
  rewrite firstn_app, length_firstn.
  replace (start - Nat.min start (length arr)) with 0 by lia.
  simpl. rewrite app_nil_r, firstn_firstn. now rewrite Nat.min_id.
Qed.

Lemma overwritten_after arr start v :
  start + length v <= length arr ->
  skipn (start + length v) (overwritten arr start v) =
  skipn (start + length v) arr.
Proof.
  intros H. unfold overwritten.
  rewrite skipn_app, length_firstn.
  replace (Nat.min start (length arr)) with start by lia.
  rewrite skipn_all2 by (rewrite length_firstn; lia).
  replace (start + length v - start) with (length v) by lia.
  simpl. rewrite skipn_app, skipn_all, Nat.sub_diag. reflexivity.
Qed.

Lemma overwritten_rows arr start v :
  start + length v <= length arr ->
  length (overwritten arr start v) = length arr.
Proof.
  intros H. unfold overwritten.
  rewrite !length_app, length_firstn, length_skipn. lia.
Qed.

Section Storage.

Variable zeros : column.
Variable n : nat.
Hypothesis zeros_rows : length zeros = n.

Lemma column_of_rows p k :
  preallocated n p -> length (column_of zeros p k) = n.
Proof.
  intros Hp. unfold column_of. destruct (dict_get k p) eqn:Hg; auto.
  exact (dict_get_Forall (fun c => length c = n) k Hp Hg).
Qed.

Lemma store_Returned p k start stop v p' :
  store zeros p k start stop v = Returned p' ->
  exists arr', setitem_slice (column_of zeros p k) start stop v = Returned arr' /\
               p' = dict_set k arr' p.
Proof.
  unfold store. fold (column_of zeros p k). intros H.
  apply obind_Returned in H as (arr' & H1 & [= <-]). now exists arr'.
Qed.

Lemma store_preallocated p k start stop v p' :
  preallocated n p -> store zeros p k start stop v = Returned p' ->
  preallocated n p'.
Proof.
  intros Hp H. apply store_Returned in H as (arr' & H1 & ->).
  apply (dict_set_Forall (fun c => length c = n)); auto.
  apply setitem_slice_length in H1. rewrite H1. now apply column_of_rows.
Qed.

Lemma store_other p k start stop v p' k' :
  k <> k' -> store zeros p k start stop v = Returned p' ->
  dict_get k' p' = dict_get k' p.
Proof.
  intros Hne H. apply store_Returned in H as (arr' & _ & ->).
  now apply dict_get_set_ne.
Qed.

Lemma store_keys p k start stop v p' k' :
  store zeros p k start stop v = Returned p' ->
  In k' (dict_keys p) -> In k' (dict_keys p').
Proof.
  intros H Hin. apply store_Returned in H as (arr' & _ & ->).
  rewrite dict_keys_set. destruct (dict_mem k p); auto.
  apply in_or_app. now left.
Qed.

Lemma store_fits p k start stop v p' :
  preallocated n p -> start < n -> start <= stop ->
  store zeros p k start stop v = Returned p' ->
  start + length v <= n.
Proof.
  intros Hp Hs Hle H. apply store_Returned in H as (arr' & H1 & _).
  rewrite <- (column_of_rows k Hp).
  apply setitem_slice_fits in H1; auto.
  now rewrite (column_of_rows k Hp).
Qed.

Lemma store_written p k start v p' :
  preallocated n p -> start + length v <= n ->
  store zeros p k start (start + length v) v = Returned p' ->
  dict_get k p' = Some (overwritten (column_of zeros p k) start v).
Proof.
  intros Hp Hfit H. apply store_Returned in H as (arr' & H1 & ->).
  rewrite setitem_slice_exact in H1
    by (rewrite (column_of_rows k Hp); exact Hfit).
  injection H1 as <-. apply dict_get_set_eq.
Qed.

Lemma store_params_preallocated items mask a b p p' :
  preallocated n p ->
  store_params zeros items mask a b p = Returned p' ->
  preallocated n p'.
Proof.
  revert p. induction items as [|[k v] items IH]; simpl; intros p Hp H.
  - now injection H as <-.
  - apply obind_Returned in H as (sel & _ & H).
    apply obind_Returned in H as (out & Hst & H).
    apply (IH out); auto. eapply store_preallocated; eauto.
Qed.

Lemma store_params_other items mask a b p p' k' :
  ~ In k' (dict_keys items) ->
  store_params zeros items mask a b p = Returned p' ->
  dict_get k' p' = dict_get k' p.
Proof.
  revert p. induction items as [|[k v] items IH]; simpl; intros p Hk H.
  - now injection H as <-.
  - apply obind_Returned in H as (sel & _ & H).
    apply obind_Returned in H as (out & Hst & H).
    rewrite (IH out) by tauto.
    eapply store_other; eauto.
Qed.

Lemma store_params_keys items mask a b p p' k' :
  store_params zeros items mask a b p = Returned p' ->
  In k' (dict_keys p) -> In k' (dict_keys p').
Proof.
  revert p. induction items as [|[k v] items IH]; simpl; intros p H Hin.
  - now injection H as <-.
  - apply obind_Returned in H as (sel & _ & H).
    apply obind_Returned in H as (out & Hst & H).
    apply (IH out); auto. eapply store_keys; eauto.
Qed.

(** The first key stored already shows that the accepted rows fit. *)
Lemma store_params_fits items mask a p p' :
  items <> [] -> preallocated n p -> a < n ->
  store_params zeros items mask a (a + count_true mask) p = Returned p' ->
  a + count_true mask <= n.
Proof.
  destruct items as [|[k v] items]; [congruence|]. simpl.
  intros _ Hp Ha H.
  apply obind_Returned in H as (sel & Hsel & H).
  apply obind_Returned in H as (out & Hst & _).
  apply getitem_mask_inv in Hsel as [Hlen ->].
  apply store_fits in Hst; auto; try lia.
  now rewrite length_select in Hst.
Qed.

Lemma store_params_written items mask a p p' :
  NoDup (dict_keys items) -> preallocated n p ->
  a + count_true mask <= n ->
  store_params zeros items mask a (a + count_true mask) p = Returned p' ->
  forall k c, dict_get k items = Some c ->
    length c = length mask /\
    dict_get k p' =
      Some (overwritten (column_of zeros p k) a (select c mask)).
Proof.
  revert p. induction items as [|[k0 v0] items IH]; simpl;
    intros p Hnd Hp Hfit H k c Hk; [discriminate|].
  apply NoDup_cons_iff in Hnd as [Hnotin Hnd'].
  apply obind_Returned in H as (sel & Hsel & H).
  apply obind_Returned in H as (out & Hst & H).
  apply getitem_mask_inv in Hsel as [Hlen ->].
  assert (Hna : length (select v0 mask) = count_true mask)
    by now apply length_select.
  rewrite <- Hna in Hst.
  destruct (String.eqb k k0) eqn:Hkk.
  - apply String.eqb_eq in Hkk. subst k0. injection Hk as <-.
    split; auto.
    erewrite store_params_other; eauto.
    apply store_written; auto. lia.
  - apply String.eqb_neq in Hkk.
    assert (Hout : preallocated n out)
      by (eapply store_preallocated; eauto).
    destruct (IH out Hnd' Hout Hfit H k c Hk) as [Hl Hg]. split; auto.
    rewrite Hg. unfold column_of.
    erewrite store_other; eauto.
Qed.

Lemma take_axis1_Returned rows i c :
  take_axis1 rows i = Returned c ->
  length c = length rows /\
  forall d, c = map (fun r => nth i r d) rows.
Proof.
  revert c. induction rows as [|r rows IH]; simpl; intros c H.
  - injection H as <-. auto.
  - destruct (nth_error r i) as [x|] eqn:Hx; [|discriminate].
    apply obind_Returned in H as (c' & Hc' & [= <-]).
    destruct (IH c' Hc') as [Hl Hm]. split; [simpl; congruence|].
    intros d. simpl. rewrite <- Hm.
    now rewrite (nth_error_nth _ _ d Hx).
Qed.

Lemma store_strain_preallocated dets i projected a b p p' :
  preallocated n p ->
  store_strain zeros dets i projected a b p = Returned p' ->
  preallocated n p'.
Proof.
  revert i p. induction dets as [|ifo dets IH]; simpl; intros i p Hp H.
  - now injection H as <-.
  - apply obind_Returned in H as (c & _ & H).
    apply obind_Returned in H as (out & Hst & H).
    apply (IH (S i) out); auto. eapply store_preallocated; eauto.
Qed.

Lemma store_strain_other dets i projected a b p p' k' :
  ~ In k' (map lower dets) ->
  store_strain zeros dets i projected a b p = Returned p' ->
  dict_get k' p' = dict_get k' p.
Proof.
  revert i p. induction dets as [|ifo dets IH]; simpl; intros i p Hk H.
  - now injection H as <-.
  - apply obind_Returned in H as (c & _ & H).
    apply obind_Returned in H as (out & Hst & H).
    rewrite (IH (S i) out) by tauto.
    eapply store_other; eauto.
Qed.

Lemma store_strain_keys dets i projected a b p p' k' :
  store_strain zeros dets i projected a b p = Returned p' ->
  In k' (dict_keys p) -> In k' (dict_keys p').
Proof.
  revert i p. induction dets as [|ifo dets IH]; simpl; intros i p H Hin.
  - now injection H as <-.
  - apply obind_Returned in H as (c & _ & H).
    apply obind_Returned in H as (out & Hst & H).
    apply (IH (S i) out); auto. eapply store_keys; eauto.
Qed.

Lemma store_strain_written dets i projected a p p' :
  NoDup (map lower dets) -> preallocated n p ->
  a + length projected <= n ->
  store_strain zeros dets i projected a (a + length projected) p
    = Returned p' ->
  forall j ifo, nth_error dets j = Some ifo ->
    dict_get (lower ifo) p' =
      Some (overwritten (column_of zeros p (lower ifo)) a
              (map (fun r => nth (i + j) r (Scalar 0%Q)) projected)).
Proof.
  revert i p. induction dets as [|ifo0 dets IH]; simpl;
    intros i p Hnd Hp Hfit H j ifo Hj; [now destruct j|].
  apply NoDup_cons_iff in Hnd as [Hnotin Hnd'].
  apply obind_Returned in H as (c & Hc & H).
  apply obind_Returned in H as (out & Hst & H).
  apply take_axis1_Returned in Hc as [Hl Hc].
  rewrite <- Hl in Hst.
  destruct j as [|j]; simpl in Hj.
  - injection Hj as <-.
    erewrite store_strain_other; eauto.
    rewrite Nat.add_0_r, <- (Hc (Scalar 0%Q)).
    apply store_written; auto. lia.
  - assert (Hout : preallocated n out)
      by (eapply store_preallocated; eauto).
    rewrite (IH (S i) out Hnd' Hout Hfit H j ifo Hj).
    replace (S i + j) with (i + S j) by lia.
    unfold column_of.
    assert (Hne : lower ifo0 <> lower ifo).
    { intros Heq. apply Hnotin. rewrite Heq.
      apply in_map. eapply nth_error_In; eauto. }
    erewrite store_other; eauto.
Qed.

Lemma store_NoDup p k start stop v p' :
  NoDup (dict_keys p) -> store zeros p k start stop v = Returned p' ->
  NoDup (dict_keys p').
Proof.
  intros Hp H. apply store_Returned in H as (arr' & _ & ->).
  now apply dict_set_NoDup.
Qed.

Lemma store_params_NoDup items mask a b p p' :
  NoDup (dict_keys p) ->
  store_params zeros items mask a b p = Returned p' ->
  NoDup (dict_keys p').
Proof.
  revert p. induction items as [|[k v] items IH]; simpl; intros p Hp H.
  - now injection H as <-.
  - apply obind_Returned in H as (sel & _ & H).
    apply obind_Returned in H as (out & Hst & H).
    apply (IH out); auto. eapply store_NoDup; eauto.
Qed.

Lemma store_strain_NoDup dets i projected a b p p' :
  NoDup (dict_keys p) ->
  store_strain zeros dets i projected a b p = Returned p' ->
  NoDup (dict_keys p').
Proof.
  revert i p. induction dets as [|ifo dets IH]; simpl; intros i p Hp H.
  - now injection H as <-.
  - apply obind_Returned in H as (c & _ & H).
    apply obind_Returned in H as (out & Hst & H).
    apply (IH (S i) out); auto. eapply store_NoDup; eauto.
Qed.

End Storage.

(** ** One iteration *)

Section Iteration.

Context {E : Collaborators}.
Variable cfg : config.
Variable zeros : column.

Lemma restrict_keys params p k :
  In k (dict_keys (restrict params p)) ->
  In k (dict_keys p) /\ In k (dict_keys params).
Proof.
  induction p as [|[k0 c0] p IH]; simpl; [tauto|].
  destruct (dict_get k0 params) eqn:Hg; simpl.
  - intros [<- | H]; [|tauto].
    split; [now left | eapply dict_get_Some_keys; eauto].
  - tauto.
Qed.

Lemma restrict_NoDup params p :
  NoDup (dict_keys p) -> NoDup (dict_keys (restrict params p)).
Proof.
  induction p as [|[k0 c0] p IH]; simpl; intros Hnd; [constructor|].
  apply NoDup_cons_iff in Hnd as [Hnotin Hnd].
  destruct (dict_get k0 params); simpl; auto.
  constructor; auto. intros Hin. apply restrict_keys in Hin. tauto.
Qed.

Lemma restrict_get params p k :
  dict_get k (restrict params p) =
  if dict_mem k p then dict_get k params else None.
Proof.
  unfold dict_mem. induction p as [|[k0 c0] p IH]; simpl; auto.
  destruct (String.eqb k k0) eqn:Hk.
  - apply String.eqb_eq in Hk. subst k0.
    destruct (dict_get k params) eqn:Hg; simpl.
    + now rewrite String.eqb_refl.
    + rewrite IH. now destruct (dict_get k p).
  - destruct (dict_get k0 params); simpl; auto. now rewrite Hk.
Qed.

Lemma sample_detector_frame_NoDup r k :
  NoDup (dict_keys (fst (sample_detector_frame r k))).
Proof.
  unfold sample_detector_frame. destruct (prior_sample r k) as [raw r'].
  simpl. destruct detector_frame_prior; apply as_dict_NoDup.
Qed.

(** Drawing never fails: it asks the prior for [n_samples] candidates. *)
Lemma draw_candidates_run st w :
  exists params r,
    draw_candidates st w =
      (Returned params,
       {| w_rng := r;
          w_trace := w_trace w ++ [PriorSampled (Z.to_nat (n_samples st))] |})
    /\ params =
         (if (n_samples st =? 1)%Z
          then restrict (fst (sample_detector_frame (w_rng w)
                                (Z.to_nat (n_samples st))))
                 (parameters st)
          else fst (sample_detector_frame (w_rng w)
                      (Z.to_nat (n_samples st)))).
Proof.
  unfold draw_candidates.
  destruct (sample_detector_frame _ _) as [params r]. simpl.
  now eexists _, r.
Qed.

Lemma draw_candidates_NoDup st w params w1 :
  NoDup (dict_keys (parameters st)) ->
  draw_candidates st w = (Returned params, w1) ->
  NoDup (dict_keys params).
Proof.
  intros Hnd H. destruct (draw_candidates_run st w) as (p & r & H1 & ->).
  rewrite H1 in H. injection H as <- _.
  destruct (n_samples st =? 1)%Z.
  - now apply restrict_NoDup.
  - apply sample_detector_frame_NoDup.
Qed.

Lemma evaluate_trace params w o w' :
  evaluate params w = (o, w') ->
  w' = {| w_rng := w_rng w; w_trace := w_trace w ++ [WaveformsGenerated] |}.
Proof.
  unfold evaluate, bind, log, lift, ret, getitem.
  destruct (dict_get "dec" params); [|now intros [= _ <-]].
  destruct (dict_get "psi" params); [|now intros [= _ <-]].
  destruct (dict_get "ra" params); now intros [= _ <-].
Qed.

Lemma evaluate_Returned params w b w' :
  evaluate params w = (Returned b, w') ->
  exists dec psi ra,
    dict_get "dec" params = Some dec /\
    dict_get "psi" params = Some psi /\
    dict_get "ra" params = Some ra /\
    b_projected b = compute_observed_strain dec psi ra (generator params) /\
    b_snrs b = compute_network_snr (b_projected b) /\
    b_params b = dict_set "snr" (map Scalar (b_snrs b)) params.
Proof.
  unfold evaluate, bind, log, lift, ret, getitem.
  destruct (dict_get "dec" params) as [dec|]; [|discriminate].
  destruct (dict_get "psi" params) as [psi|]; [|discriminate].
  destruct (dict_get "ra" params) as [ra|]; [|discriminate].
  intros [= <- _]. now exists dec, psi, ra.
Qed.

Lemma partition_batch_Returned st b w st' w' :
  partition_batch cfg zeros st b w = (Returned st', w') ->
  let mask := threshold_mask cfg (b_snrs b) in
  exists rejected,
    collect_rejected reject_fields (b_params b) (map negb mask) []
      = Returned rejected /\
    num_injections st' = num_injections st + length (b_snrs b) /\
    rejected_params st' = ledger_append (rejected_params st) rejected /\
    ((count_true mask = 0 /\
      parameters st' = parameters st /\
      n_samples st' = n_samples st /\
      idx st' = idx st /\
      w' = w)
     \/
     (count_true mask <> 0 /\
      store_accepted cfg zeros b mask (idx st) (idx st + count_true mask)
        (parameters st) = Returned (parameters st') /\
      n_samples st' = (n_samples st - Z.of_nat (count_true mask))%Z /\
      idx st' = idx st + count_true mask /\
      w' = {| w_rng := w_rng w;
              w_trace := w_trace w ++
                [RowsStored (idx st) (idx st + count_true mask)] |})).
Proof.
  intros H mask. revert H.
  unfold partition_batch, bind, lift, log, ret. fold mask. intros H.
  destruct (collect_rejected _ _ _ _) as [rejected | |]; try discriminate.
  exists rejected. split; [reflexivity|].
  destruct (count_true mask =? 0) eqn:Hna.
  - apply Nat.eqb_eq in Hna. injection H as <- <-. simpl. tauto.
  - apply Nat.eqb_neq in Hna.
    destruct (store_accepted _ _ _ _ _ _ _) as [out | |]; try discriminate.
    injection H as <- <-. simpl. split; auto. split; auto.
    right. repeat split; auto.
Qed.

(** Whatever becomes of the partition, it samples nothing, and it logs
    a store only when the write has succeeded. *)
Lemma partition_batch_trace st b w o w' :
  partition_batch cfg zeros st b w = (o, w') ->
  w' = w \/
  exists st', o = Returned st' /\
    idx st < idx st' /\
    w' = {| w_rng := w_rng w;
            w_trace := w_trace w ++ [RowsStored (idx st) (idx st')] |}.
Proof.
  unfold partition_batch, bind, lift, log, ret.
  set (mask := threshold_mask cfg (b_snrs b)).
  destruct (collect_rejected _ _ _ _) as [rejected | |];
    try (intros [= _ <-]; now left).
  destruct (count_true mask =? 0) eqn:Hna.
  - intros [= _ <-]. now left.
  - apply Nat.eqb_neq in Hna.
    destruct (store_accepted _ _ _ _ _ _ _) as [out | |];
      try (intros [= _ <-]; now left).
    intros [= <- <-]. right. eexists. split; [reflexivity|].
    simpl. split; [lia | reflexivity].
Qed.

Lemma loop_body_Returned st w st' w' :
  loop_body cfg zeros st w = (Returned st', w') ->
  exists params w1 b w2,
    draw_candidates st w = (Returned params, w1) /\
    evaluate params w1 = (Returned b, w2) /\
    partition_batch cfg zeros st b w2 = (Returned st', w').
Proof.
  unfold loop_body. intros H.
  apply bind_Returned in H as (params & w1 & H1 & H).
  apply bind_Returned in H as (b & w2 & H2 & H).
  now exists params, w1, b, w2.
Qed.

Lemma reachable_front st w st1 w1 st' w' :
  (0 < n_samples st)%Z ->
  loop_body cfg zeros st w = (Returned st1, w1) ->
  reachable cfg zeros st1 w1 st' w' ->
  reachable cfg zeros st w st' w'.
Proof.
  intros Hguard Hstep Hr. induction Hr.
  - eapply reach_step; eauto. constructor.
  - eapply reach_step; eauto.
Qed.

Lemma accumulate_reachable fuel st w st' w' :
  accumulate cfg zeros fuel st w = (Returned st', w') ->
  reachable cfg zeros st w st' w' /\ (n_samples st' <= 0)%Z.
Proof.
  revert st w. induction fuel as [|fuel IH]; intros st w; simpl;
    destruct (0 <? n_samples st)%Z eqn:Hg.
  - discriminate.
  - apply Z.ltb_ge in Hg. intros [= <- <-]. split; [constructor | lia].
  - apply Z.ltb_lt in Hg. intros H.
    apply bind_Returned in H as (st1 & w1 & H1 & H).
    destruct (IH _ _ H) as [Hr Hn]. split; auto.
    eapply reachable_front; eauto.
  - apply Z.ltb_ge in Hg. intros [= <- <-]. split; [constructor | lia].
Qed.

End Iteration.

(** ** Traces *)

Lemma within_bound_app n offset t1 t2 :
  within_bound n offset (t1 ++ t2) <->
  within_bound n offset t1 /\ within_bound n (offset_after offset t1) t2.
Proof.
  revert offset. induction t1 as [|e t1 IH]; intros offset; simpl.
  - tauto.
  - destruct e; simpl; rewrite ?IH; tauto.
Qed.

Lemma offset_after_app offset t1 t2 :
  offset_after offset (t1 ++ t2) = offset_after (offset_after offset t1) t2.
Proof.
  revert offset. induction t1 as [|e t1 IH]; intros offset; simpl; auto.
  destruct e; simpl; auto.
Qed.

Lemma rows_stored_app t1 t2 :
  rows_stored (t1 ++ t2) = rows_stored t1 ++ rows_stored t2.
Proof.
  induction t1 as [|e t1 IH]; simpl; auto.
  destruct e; simpl; auto. now rewrite IH, app_assoc.
Qed.

Lemma batches_requested_app t1 t2 :
  batches_requested (t1 ++ t2) = batches_requested t1 ++ batches_requested t2.
Proof.
  induction t1 as [|e t1 IH]; simpl; auto.
  destruct e; simpl; auto. now rewrite IH.
Qed.

(** ** The loop invariant *)

Section Invariant.

Context {E : Collaborators}.
Variable cfg : config.
Variable zeros : column.
Variable n : nat.
Hypothesis zeros_rows : length zeros = n.

Lemma store_accepted_Returned b mask a stop p out :
  store_accepted cfg zeros b mask a stop p = Returned out ->
  exists mid projected,
    store_params zeros (b_params b) mask a stop p = Returned mid /\
    getitem_mask (b_projected b) mask = Returned projected /\
    store_strain zeros (ifos cfg) 0 projected a stop mid = Returned out.
Proof.
  unfold store_accepted. intros H.
  apply obind_Returned in H as (mid & H1 & H).
  apply obind_Returned in H as (projected & H2 & H).
  now exists mid, projected.
Qed.

Lemma partition_batch_inv st b w st' w' :
  loop_inv n st -> (0 < n_samples st)%Z -> b_params b <> [] ->
  partition_batch cfg zeros st b w = (Returned st', w') ->
  loop_inv n st' /\ idx st <= idx st' <= n.
Proof.
  intros (Hsum & Hpos & Hpre & Hnd) Hguard Hne H.
  apply partition_batch_Returned in H
    as (rejected & _ & _ & _ & [(Hna & Hp & Hn & Hi & _) |
                                (Hna & Hst & Hn & Hi & _)]).
  - unfold loop_inv. rewrite Hp, Hn, Hi. repeat split; auto; lia.
  - apply store_accepted_Returned in Hst as (mid & proj & H1 & H2 & H3).
    assert (Hfit : idx st + count_true (threshold_mask cfg (b_snrs b)) <= n).
    { eapply store_params_fits; eauto. lia. }
    unfold loop_inv. rewrite Hn, Hi. repeat split; try lia.
    + eapply store_strain_preallocated; [exact zeros_rows | | exact H3].
      eapply store_params_preallocated; [exact zeros_rows | | exact H1].
      assumption.
    + eapply store_strain_NoDup; [| exact H3].
      eapply store_params_NoDup; [| exact H1]. assumption.
Qed.

Lemma dict_set_nonempty k c d : dict_set k c d <> [].
Proof. destruct d as [|[k' c'] d]; simpl; [|destruct (String.eqb k k')]; discriminate. Qed.

Lemma loop_body_inv st w st' w' :
  loop_inv n st -> (0 < n_samples st)%Z ->
  loop_body cfg zeros st w = (Returned st', w') ->
  loop_inv n st' /\ idx st <= idx st' <= n.
Proof.
  intros Hinv Hguard H.
  apply loop_body_Returned in H as (params & w1 & b & w2 & _ & H2 & H3).
  apply evaluate_Returned in H2 as (_ & _ & _ & _ & _ & _ & _ & _ & Hb).
  eapply partition_batch_inv; eauto.
  rewrite Hb. apply dict_set_nonempty.
Qed.

Lemma reachable_inv st0 w0 st w :
  loop_inv n st0 -> reachable cfg zeros st0 w0 st w ->
  loop_inv n st /\ idx st0 <= idx st <= n.
Proof.
  intros H0 Hr. induction Hr as [|st w st' w' Hr [IH Hle] Hguard Hstep].
  - split; auto. destruct H0 as (Hsum & Hpos & _). lia.
  - destruct (loop_body_inv _ IH Hguard Hstep) as [Hinv' Hle'].
    split; auto. lia.
Qed.

(** What one pass through the body adds to the trace, however it ends. *)
Lemma loop_body_trace st w o w' :
  loop_inv n st -> (0 < n_samples st)%Z ->
  loop_body cfg zeros st w = (o, w') ->
  exists t,
    w_trace w' = w_trace w ++ t /\
    within_bound n (idx st) t /\
    batches_requested t = [n - idx st] /\
    match o with
    | Returned st' =>
        offset_after (idx st) t = idx st' /\
        rows_stored t = seq (idx st) (idx st' - idx st)
    | _ => offset_after (idx st) t = idx st /\ rows_stored t = []
    end.
Proof.
  intros Hinv Hguard.
  assert (Hk : Z.to_nat (n_samples st) = n - idx st)
    by (destruct Hinv as (Hsum & _); lia).
  unfold loop_body, bind.
  destruct (draw_candidates_run st w) as (params & r & -> & _).
  rewrite Hk.
  destruct (evaluate params _) as [[b | e |] w2] eqn:He;
    pose proof (evaluate_trace _ _ He) as Hw2; simpl in Hw2.
  2,3: intros [= <- <-]; subst w2; simpl;
       exists [PriorSampled (n - idx st); WaveformsGenerated];
       rewrite <- app_assoc; simpl; auto.
  intros H.
  assert (Hb : b_params b <> []).
  { apply evaluate_Returned in He as (_ & _ & _ & _ & _ & _ & _ & _ & Hb).
    rewrite Hb. apply dict_set_nonempty. }
  destruct o as [st' | e |].
  - pose proof (proj2 (partition_batch_inv _ _ Hinv Hguard Hb H)) as Hle.
    apply partition_batch_Returned in H
      as (rejected & _ & _ & _ & [(Hna & Hp & Hn & Hi & ->) |
                                  (Hna & Hst & Hn & Hi & ->)]).
    + subst w2. simpl.
      exists [PriorSampled (n - idx st); WaveformsGenerated].
      rewrite <- app_assoc, Hi, Nat.sub_diag. simpl. auto.
    + subst w2. simpl.
      exists [PriorSampled (n - idx st); WaveformsGenerated;
              RowsStored (idx st) (idx st')].
      rewrite <- !app_assoc, <- Hi. simpl. rewrite app_nil_r.
      repeat split; auto; lia.
  - apply partition_batch_trace in H as [-> | (st' & [=] & _)].
    subst w2. simpl.
    exists [PriorSampled (n - idx st); WaveformsGenerated].
    rewrite <- app_assoc. simpl. auto.
  - apply partition_batch_trace in H as [-> | (st' & [=] & _)].
    subst w2. simpl.
    exists [PriorSampled (n - idx st); WaveformsGenerated].
    rewrite <- app_assoc. simpl. auto.
Qed.

(** The trace of the loop, however and whenever it is cut off. *)
Lemma accumulate_trace fuel st w o w' :
  loop_inv n st ->
  accumulate cfg zeros fuel st w = (o, w') ->
  exists t,
    w_trace w' = w_trace w ++ t /\
    within_bound n (idx st) t /\
    match o with
    | Returned st' =>
        idx st' = n /\ n_samples st' = 0%Z /\
        rows_stored t = seq (idx st) (n - idx st)
    | _ => True
    end.
Proof.
  revert st w. induction fuel as [|fuel IH]; intros st w Hinv; simpl;
    destruct (0 <? n_samples st)%Z eqn:Hg.
  - intros [= <- <-]. exists []. rewrite app_nil_r. simpl. auto.
  - apply Z.ltb_ge in Hg. intros [= <- <-]. exists [].
    rewrite app_nil_r. simpl. destruct Hinv as (Hsum & Hpos & _).
    assert (Hn : n_samples st = 0%Z) by lia.
    repeat split; auto; try lia.
    replace (n - idx st) with 0 by lia. reflexivity.
  - apply Z.ltb_lt in Hg. unfold bind.
    destruct (loop_body cfg zeros st w) as [[st1 | e |] w1] eqn:Hb;
      (edestruct loop_body_trace as (t1 & Ht1 & Hwb & _ & Ho);
       [exact Hinv | exact Hg | exact Hb |]).
    + edestruct loop_body_inv as [Hinv1 Hle];
        [exact Hinv | exact Hg | exact Hb |].
      intros H. destruct (IH _ _ Hinv1 H) as (t2 & Ht2 & Hwb2 & Ho2).
      destruct Ho as [Hoff Hrows].
      exists (t1 ++ t2). rewrite Ht2, Ht1, app_assoc. split; auto.
      split; [apply within_bound_app; rewrite Hoff; auto|].
      destruct o as [st' | |]; auto.
      destruct Ho2 as (Hi & Hn & Hr). repeat split; auto.
      rewrite rows_stored_app, Hrows, Hr.
      replace (n - idx st) with ((idx st1 - idx st) + (n - idx st1)) by lia.
      rewrite seq_app. f_equal. f_equal. lia.
    + intros [= <- <-]. exists t1. auto.
    + intros [= <- <-]. exists t1. auto.
  - apply Z.ltb_ge in Hg. intros [= <- <-]. exists [].
    rewrite app_nil_r. simpl. destruct Hinv as (Hsum & Hpos & _).
    assert (Hn : n_samples st = 0%Z) by lia.
    repeat split; auto; try lia.
    replace (n - idx st) with 0 by lia. reflexivity.
Qed.

End Invariant.

(** ** The preallocated storage *)

Lemma init_strain_Returned dets n size p p' :
  init_strain dets n size p = Returned p' ->
  preallocated n p -> NoDup (dict_keys p) ->
  preallocated n p' /\ NoDup (dict_keys p') /\
  (forall k, ~ In k (map lower dets) -> dict_get k p' = dict_get k p) /\
  (forall k, In k (dict_keys p') ->
     In k (dict_keys p) \/ In k (map lower dets)).
Proof.
  revert p. induction dets as [|ifo dets IH]; simpl; intros p H Hp Hnd.
  - injection H as <-. repeat split; auto.
  - destruct (size <? 0)%Z; [discriminate|].
    set (empty := repeat (Series (repeat 0%Q (Z.to_nat size))) n) in H.
    assert (Hp' : preallocated n (dict_set (lower ifo) empty p)).
    { apply (dict_set_Forall (fun c => length c = n)); auto.
      apply repeat_length. }
    assert (Hnd' : NoDup (dict_keys (dict_set (lower ifo) empty p)))
      by now apply dict_set_NoDup.
    destruct (IH _ H Hp' Hnd') as (H1 & H2 & H3 & H4).
    repeat split; auto.
    + intros k Hk. rewrite H3 by tauto.
      apply dict_get_set_ne. tauto.
    + intros k Hk. apply H4 in Hk as [Hk | Hk]; [|tauto].
      rewrite dict_keys_set in Hk.
      destruct (dict_mem (lower ifo) p); [tauto|].
      apply in_app_or in Hk as [Hk | [<- | []]]; tauto.
Qed.

Lemma initial_parameters_Returned cfg times sh size p :
  initial_parameters cfg times sh size = Returned p ->
  preallocated (length times) p /\ NoDup (dict_keys p) /\
  (forall k, In k (dict_keys p) ->
     In k ("gps_time" :: "shift" :: map lower (ifos cfg))) /\
  (~ In "gps_time" (map lower (ifos cfg)) ->
   dict_get "gps_time" p = Some (map Scalar times)) /\
  (~ In "shift" (map lower (ifos cfg)) ->
   dict_get "shift" p = Some (repeat (Series sh) (length times))).
Proof.
  unfold initial_parameters. intros H.
  apply init_strain_Returned in H as (H1 & H2 & H3 & H4).
  2: { repeat constructor; simpl; [apply length_map | apply repeat_length]. }
  2: { simpl. repeat constructor; simpl; intuition discriminate. }
  repeat split; auto; try (intros Hk; now rewrite H3).
  intros k Hk. apply H4 in Hk as [Hk | Hk]; simpl in *; tauto.
Qed.

Lemma init_strain_halts dets n size p :
  init_strain dets n size p <> OutOfFuel.
Proof.
  revert p. induction dets as [|ifo dets IH]; simpl; intros p.
  - discriminate.
  - destruct (size <? 0)%Z; [discriminate | apply IH].
Qed.

Lemma initial_parameters_halts cfg times sh size :
  initial_parameters cfg times sh size <> OutOfFuel.
Proof. apply init_strain_halts. Qed.

Lemma initial_state_inv {E : Collaborators} p n :
  preallocated n p -> NoDup (dict_keys p) -> loop_inv n (initial_state p n).
Proof. intros Hp Hnd. unfold loop_inv. simpl. repeat split; auto; lia. Qed.

(** ** Partition by the threshold *)




Lemma select_indices {A} (c : list A) mask d i :
  length c = length mask ->
  select c mask = map (fun j => nth (j - i) c d) (mask_indices i mask).
Proof.
  revert mask i. induction c as [|x c IH]; intros [|b mask] i; simpl;
    try discriminate; auto.
  intros [= H].
  assert (Hshift : map (fun j => nth (j - i) (x :: c) d)
                     (mask_indices (S i) mask)
                   = map (fun j => nth (j - S i) c d)
                       (mask_indices (S i) mask)).
  { assert (Hge : forall m k j, In j (mask_indices k m) -> k <= j).
    { induction m as [|b' m IHm]; simpl; intros k j; [tauto|].
      destruct b'; simpl.
      - intros [<- | Hj]; [lia|]. apply IHm in Hj. lia.
      - intros Hj. apply IHm in Hj. lia. }
    apply map_ext_in. intros j Hj. apply Hge in Hj.
    replace (j - i) with (S (j - S i)) by lia. reflexivity. }
  destruct b; simpl.
  - rewrite Nat.sub_diag. simpl. f_equal.
    rewrite (IH mask (S i) H). symmetry. exact Hshift.
  - rewrite (IH mask (S i) H). symmetry. exact Hshift.
Qed.

Lemma mask_indices_increasing i mask :
  StronglySorted lt (mask_indices i mask) /\
  Forall (fun j => i <= j < i + length mask) (mask_indices i mask).
Proof.
  revert i. induction mask as [|b mask IH]; intros i; simpl.
  - split; constructor.
  - destruct (IH (S i)) as [Hs Hb].
    assert (Hb' : Forall (fun j => i <= j < i + S (length mask))
                    (mask_indices (S i) mask)).
    { eapply Forall_impl; [|exact Hb]. simpl. intros j Hj. lia. }
    destruct b; split; auto.
    + constructor; auto.
      eapply Forall_impl; [|exact Hb]. simpl. intros j Hj. lia.
    + constructor; auto. lia.
Qed.

Lemma collect_rejected_other fields params notmask acc rej k :
  collect_rejected fields params notmask acc = Returned rej ->
  ~ In k fields -> dict_get k rej = dict_get k acc.
Proof.
  revert acc. induction fields as [|f fields IH]; simpl; intros acc H Hk.
  - now injection H as <-.
  - apply obind_Returned in H as (c & _ & H).
    apply obind_Returned in H as (r & _ & H).
    rewrite (IH _ H) by tauto. apply dict_get_set_ne. tauto.
Qed.

Lemma collect_rejected_field fields params notmask acc rej k :
  collect_rejected fields params notmask acc = Returned rej ->
  In k fields ->
  exists c, dict_get k params = Some c /\ length c = length notmask /\
            dict_get k rej = Some (select c notmask).
Proof.
  revert acc. induction fields as [|f fields IH]; simpl; intros acc H Hk;
    [tauto|].
  apply obind_Returned in H as (c & Hc & H).
  apply obind_Returned in H as (r & Hr & H).
  destruct (in_dec string_dec k fields) as [Hin | Hin].
  - eapply IH; eauto.
  - destruct Hk as [-> | Hk]; [|tauto].
    apply getitem_Returned in Hc.
    apply getitem_mask_inv in Hr as [Hl ->].
    exists c. repeat split; auto.
    rewrite (collect_rejected_other _ _ _ _ _ H Hin).
    apply dict_get_set_eq.
Qed.

Lemma ledger_append_get ours theirs k :
  dict_get k (ledger_append ours theirs) =
  match dict_get k ours with
  | Some c => Some (c ++ match dict_get k theirs with
                         | Some c' => c'
                         | None => []
                         end)
  | None => None
  end.
Proof.
  unfold ledger_append. induction ours as [|[k0 c0] ours IH]; simpl; auto.
  destruct (String.eqb k k0) eqn:Hk; auto.
  apply String.eqb_eq in Hk. now subst.
Qed.



(** * The claims *)


(** C3 (no overshoot).  In every state the loop passes through, the
    deficit [n_samples] is the original count minus the rows accepted so
    far, the offset is at most the original count, every column keeps
    its preallocated rows, and the batch then requested from the prior
    is exactly that deficit.  However and whenever the run is cut off,
    its trace requests only the current deficit and stores only rows
    below the preallocated bound. *)
Theorem batch_is_deficit_and_offset_bounded {E : Collaborators}
    cfg times sh size p :
  initial_parameters cfg times sh size = Returned p ->
  let n := length times in
  let zeros := repeat (Scalar 0%Q) n in
  (forall w0 st w,
     reachable cfg zeros (initial_state p n) w0 st w ->
     idx st <= n /\
     n_samples st = (Z.of_nat n - Z.of_nat (idx st))%Z /\
     preallocated n (parameters st) /\
     exists params r,
       draw_candidates st w =
         (Returned params,
          {| w_rng := r;
             w_trace := w_trace w ++ [PriorSampled (n - idx st)] |})) /\
  (forall fuel w o w',
     accumulate cfg zeros fuel (initial_state p n) w = (o, w') ->
     exists t, w_trace w' = w_trace w ++ t /\ within_bound n 0 t).
Proof.
  intros Hp n zeros.
  apply initial_parameters_Returned in Hp as (Hpre & Hnd & _).
  fold n in Hpre.
  assert (Hz : length zeros = n) by apply repeat_length.
  pose proof (initial_state_inv Hpre Hnd) as Hinv.
  split.
  - intros w0 st w Hr.
    destruct (reachable_inv Hz Hinv Hr) as [(Hsum & Hpos & Hpre' & _) Hle].
    repeat split; auto; try lia.
    destruct (draw_candidates_run st w) as (params & r & Hd & _).
    exists params, r. rewrite Hd.
    replace (Z.to_nat (n_samples st)) with (n - idx st) by lia.
    reflexivity.
  - intros fuel w o w' H.
    destruct (accumulate_trace cfg zeros Hz fuel w Hinv H)
      as (t & Ht & Hwb & _).
    now exists t.
Qed.

Section Threshold.

Context {E : Collaborators}.
Variable cfg : config.
Variable zeros : column.
Variable n : nat.
Hypothesis zeros_rows : length zeros = n.
Hypothesis snr_not_detector : ~ In "snr" (map lower (ifos cfg)).
Hypothesis snr_declared : In "snr" reject_fields.




End Threshold.


(** ** A batch with no acceptance *)

Lemma collect_rejected_total fields params notmask acc :
  (forall k, In k fields ->
     exists c, dict_get k params = Some c /\ length c = length notmask) ->
  exists rej, collect_rejected fields params notmask acc = Returned rej.
Proof.
  revert acc. induction fields as [|f fields IH]; simpl; intros acc H.
  - now exists acc.
  - destruct (H f (or_introl eq_refl)) as (c & Hc & Hl).
    unfold getitem, getitem_mask. rewrite Hc. simpl.
    rewrite Hl, Nat.eqb_refl. simpl. apply IH. auto.
Qed.

(** An iteration that accepts nothing keeps everything but the counter
    and the rejected set. *)
Lemma loop_body_zero_acceptance {E : Collaborators}
    cfg zeros st w params w1 b w2 rej :
  draw_candidates st w = (Returned params, w1) ->
  evaluate params w1 = (Returned b, w2) ->
  count_true (threshold_mask cfg (b_snrs b)) = 0 ->
  collect_rejected reject_fields (b_params b)
    (map negb (threshold_mask cfg (b_snrs b))) [] = Returned rej ->
  loop_body cfg zeros st w =
    (Returned {| parameters := parameters st;
                 n_samples := n_samples st;
                 idx := idx st;
                 num_injections := num_injections st + length (b_snrs b);
                 rejected_params :=
                   ledger_append (rejected_params st) rej |},
     w2).
Proof.
  intros Hd He Hna Hrej.
  unfold loop_body, bind. rewrite Hd, He.
  unfold partition_batch, bind, lift. rewrite Hrej, Hna.
  reflexivity.
Qed.

(** C5 (zero-acceptance iterations).  Take an iteration whose batch was
    drawn and evaluated, in which no candidate meets the threshold, and
    whose candidates carry every declared field.  The iteration
    completes; it leaves Accepted, the write offset and the deficit as
    they were and stores no row; it counts the whole batch in
    [num_injections]; and it appends to every declared field of Rejected
    the whole column of the batch - for "snr", the SNR of every
    candidate. *)
Theorem all_rejected_batch_is_recorded {E : Collaborators}
    cfg zeros st w params w1 b w2 :
  draw_candidates st w = (Returned params, w1) ->
  evaluate params w1 = (Returned b, w2) ->
  count_true (threshold_mask cfg (b_snrs b)) = 0 ->
  (forall k, In k reject_fields ->
     exists c, dict_get k (b_params b) = Some c /\
               length c = length (b_snrs b)) ->
  exists st',
    loop_body cfg zeros st w = (Returned st', w2) /\
    parameters st' = parameters st /\
    idx st' = idx st /\
    n_samples st' = n_samples st /\
    num_injections st' = num_injections st + length (b_snrs b) /\
    w_trace w2 =
      w_trace w ++ [PriorSampled (Z.to_nat (n_samples st));
                    WaveformsGenerated] /\
    (forall k old,
       In k reject_fields ->
       dict_get k (rejected_params st) = Some old ->
       exists c, dict_get k (b_params b) = Some c /\
                 dict_get k (rejected_params st') = Some (old ++ c)) /\
    (forall old,
       In "snr" reject_fields ->
       dict_get "snr" (rejected_params st) = Some old ->
       dict_get "snr" (rejected_params st')
         = Some (old ++ map Scalar (b_snrs b))).
Proof.
  intros Hd He Hna Hfields.
  set (mask := threshold_mask cfg (b_snrs b)) in *.
  assert (Hm : length mask = length (b_snrs b))
    by (unfold mask, threshold_mask; apply length_map).
  assert (Hall : map negb mask = repeat true (length mask))
    by now apply count_true_0.
  destruct (collect_rejected_total reject_fields (b_params b)
              (map negb mask) []) as (rej & Hrej).
  { intros k Hk. destruct (Hfields k Hk) as (c & Hc & Hl).
    exists c. split; auto. rewrite length_map. congruence. }
  assert (Hrows : forall k, In k reject_fields ->
            exists c, dict_get k (b_params b) = Some c /\
                      dict_get k rej = Some c).
  { intros k Hk.
    edestruct collect_rejected_field as (c & Hc & Hl & Hg);
      [exact Hrej | exact Hk |].
    exists c. split; auto. rewrite Hg, Hall.
    rewrite length_map in Hl. rewrite <- Hl. now rewrite select_all. }
  eexists. split.
  - eapply loop_body_zero_acceptance; eauto.
  - simpl. repeat split; auto.
    + destruct (draw_candidates_run st w) as (p' & r & Hd' & _).
      rewrite Hd' in Hd. injection Hd as _ <-.
      apply evaluate_trace in He. rewrite He. simpl.
      now rewrite <- app_assoc.
    + intros k old Hk Hold. destruct (Hrows k Hk) as (c & Hc & Hg).
      exists c. split; auto.
      now rewrite ledger_append_get, Hold, Hg.
    + intros old Hk Hold. destruct (Hrows "snr" Hk) as (c & Hc & Hg).
      apply evaluate_Returned in He as (_ & _ & _ & _ & _ & _ & _ & _ & Hb).
      rewrite Hb, dict_get_set_eq in Hc. injection Hc as <-.
      now rewrite ledger_append_get, Hold, Hg.
Qed.

(** C6 (order preservation).  In an iteration that accepts at least one
    candidate, with the detectors stored under distinct keys that no
    candidate field uses: every field of the batch (its "snr" included)
    has its masked rows, in batch order, at rows
    [idx, idx + num_accepted) of Accepted, the rows before and after
    left as they were; so has the strain of every detector; and masking
    picks the rows at the strictly increasing positions where the mask
    is set. *)
Theorem accepted_rows_keep_batch_order {E : Collaborators}
    cfg zeros n st w params w1 b w2 st' w' :
  length zeros = n ->
  loop_inv n st ->
  (0 < n_samples st)%Z ->
  NoDup (map lower (ifos cfg)) ->
  (forall ifo, In ifo (ifos cfg) ->
     dict_get (lower ifo) (b_params b) = None) ->
  draw_candidates st w = (Returned params, w1) ->
  evaluate params w1 = (Returned b, w2) ->
  loop_body cfg zeros st w = (Returned st', w') ->
  let mask := threshold_mask cfg (b_snrs b) in
  let num_accepted := count_true mask in
  num_accepted <> 0 ->
  idx st' = idx st + num_accepted /\
  idx st + num_accepted <= n /\
  (forall k c,
     dict_get k (b_params b) = Some c ->
     exists col,
       dict_get k (parameters st') = Some col /\
       getslice col (idx st) (idx st + num_accepted) = select c mask /\
       firstn (idx st) col
         = firstn (idx st) (column_of zeros (parameters st) k) /\
       skipn (idx st + num_accepted) col
         = skipn (idx st + num_accepted)
             (column_of zeros (parameters st) k)) /\
  (forall i ifo,
     nth_error (ifos cfg) i = Some ifo ->
     exists col,
       dict_get (lower ifo) (parameters st') = Some col /\
       getslice col (idx st) (idx st + num_accepted)
         = map (fun row => nth i row (Scalar 0%Q))
             (select (b_projected b) mask) /\
       firstn (idx st) col
         = firstn (idx st) (column_of zeros (parameters st) (lower ifo)) /\
       skipn (idx st + num_accepted) col
         = skipn (idx st + num_accepted)
             (column_of zeros (parameters st) (lower ifo))) /\
  (forall (c : column) d,
     length c = length mask ->
     select c mask = map (fun j => nth j c d) (mask_indices 0 mask)) /\
  StronglySorted lt (mask_indices 0 mask).
Proof.
  intros Hz Hinv Hguard Hdets Hfresh Hd He H mask na Hna.
  pose proof Hinv as (Hsum & Hpos & Hpre & Hnd).
  apply loop_body_Returned in H as (params' & w1' & b' & w2' & Hd' & He' & H).
  rewrite Hd in Hd'. injection Hd' as <- <-.
  rewrite He in He'. injection He' as <- <-.
  apply (draw_candidates_NoDup _ _ Hnd) in Hd.
  apply evaluate_Returned in He as (_ & _ & _ & _ & _ & _ & _ & _ & Hb).
  assert (Hkeys : NoDup (dict_keys (b_params b)))
    by (rewrite Hb; now apply dict_set_NoDup).
  assert (Hne : b_params b <> [])
    by (rewrite Hb; apply dict_set_nonempty).
  apply partition_batch_Returned in H
    as (rejected & _ & _ & _ & [(Hna0 & _) | (_ & Hst & Hn & Hi & _)]);
    [contradiction|].
  fold mask in Hst, Hi. fold na in Hst, Hi.
  apply store_accepted_Returned in Hst as (mid & proj & H1 & H2 & H3).
  assert (Hfit : idx st + na <= n)
    by (eapply store_params_fits; eauto; lia).
  apply getitem_mask_inv in H2 as [Hplen ->].
  assert (Hprows : length (select (b_projected b) mask) = na)
    by now apply length_select.
  assert (Hmid : preallocated n mid).
  { eapply store_params_preallocated; [exact Hz | | exact H1]. assumption. }
  assert (Hcol : forall k, length (column_of zeros (parameters st) k) = n)
    by (intros k; now apply column_of_rows).
  split; [exact Hi|]. split; [exact Hfit|]. split; [|split; [|split]].
  - intros k c Hk.
    edestruct store_params_written as [Hlen Hg];
      [exact Hz | exact Hkeys | exact Hpre | exact Hfit | exact H1
       | exact Hk |].
    assert (Hnot : ~ In k (map lower (ifos cfg))).
    { intros Hin. apply in_map_iff in Hin as (ifo & <- & Hin).
      rewrite (Hfresh _ Hin) in Hk. discriminate. }
    assert (Hout : dict_get k (parameters st') = dict_get k mid)
      by (eapply store_strain_other; [exact Hnot | exact H3]).
    assert (Hsel : length (select c mask) = na) by now apply length_select.
    eexists. split; [rewrite Hout; exact Hg|].
    rewrite <- Hsel. split; [|split].
    + apply overwritten_slice. rewrite Hcol. lia.
    + apply overwritten_before. rewrite Hcol. lia.
    + apply overwritten_after. rewrite Hcol, Hsel. lia.
  - intros i ifo Hi'.
    rewrite <- Hprows in H3.
    assert (Hg : dict_get (lower ifo) (parameters st') =
                 Some (overwritten (column_of zeros mid (lower ifo)) (idx st)
                         (map (fun r => nth (0 + i) r (Scalar 0%Q))
                            (select (b_projected b) mask)))).
    { eapply store_strain_written;
        [exact Hz | exact Hdets | exact Hmid | | exact H3 | exact Hi'].
      rewrite Hprows. exact Hfit. }
    simpl in Hg.
    assert (Hsame : column_of zeros mid (lower ifo)
                    = column_of zeros (parameters st) (lower ifo)).
    { unfold column_of. erewrite store_params_other; [reflexivity | | exact H1].
      apply dict_get_None_keys, Hfresh. eapply nth_error_In; eauto. }
    rewrite Hsame in Hg.
    set (v := map (fun r => nth i r (Scalar 0%Q))
                (select (b_projected b) mask)) in *.
    assert (Hv : length v = na) by (unfold v; now rewrite length_map).
    eexists. split; [exact Hg|].
    rewrite <- Hv. split; [|split].
    + apply overwritten_slice. rewrite Hcol. lia.
    + apply overwritten_before. rewrite Hcol. lia.
    + apply overwritten_after. rewrite Hcol, Hv. lia.
  - intros c d Hlen.
    rewrite (select_indices c mask d 0 Hlen).
    apply map_ext. intros j. now rewrite Nat.sub_0_r.
  - apply mask_indices_increasing.
Qed.

(** ** A threshold nothing reaches *)

Section Unreachable.

Context {E : Collaborators}.
Variable cfg : config.
Variable zeros : column.
Hypothesis all_below :
  forall projected,
    Forall (fun s => (s < snr_threshold cfg)%Q)
      (compute_network_snr projected).








End Unreachable.


(** ** The background directory *)

Lemma sorted_nil l : sorted l = [] -> l = [].
Proof.
  destruct l as [|x l]; auto. simpl.
  destruct (sorted l) as [|y l']; simpl; [discriminate|].
  destruct (String.leb x y); discriminate.
Qed.

Lemma first_sorted_entry_raises d e :
  first_sorted_entry d = Raised e -> e = IndexError \/ e = FileNotFoundError.
Proof.
  unfold first_sorted_entry, iterdir.
  destruct (dir_entries d) as [names|]; simpl.
  - destruct (sorted _); simpl; [intros [= <-]; auto | discriminate].
  - intros [= <-]. auto.
Qed.

Lemma background_path_unhandled d :
  background_path d = first_sorted_entry d.
Proof.
  unfold background_path, try_except.
  destruct (first_sorted_entry d) as [x | e |] eqn:H; auto.
  apply first_sorted_entry_raises in H as [-> | ->]; reflexivity.
Qed.

Lemma background_path_empty d :
  dir_entries d = Some [] -> background_path d = Raised IndexError.
Proof.
  intros H. rewrite background_path_unhandled.
  unfold first_sorted_entry, iterdir. now rewrite H.
Qed.

(** C8 (empty background directory).  When the background directory has
    no entries, [main] raises, whatever the iteration budget; it logs
    nothing - no prior sample, no waveform generation, no stored row, no
    PSD load, no file written - and the prior's random state is what
    seeding left: nothing was drawn. *)
Theorem empty_background_aborts_before_sampling {E : Collaborators}
    cfg fuel w :
  dir_entries (background_dir cfg) = Some [] ->
  exists e w',
    main cfg fuel w = (Raised e, w') /\
    w_trace w' = w_trace w /\
    w_rng w' =
      match seed cfg with
      | Some s => seed_worker (start cfg) (stop cfg) (shifts cfg) s (w_rng w)
      | None => w_rng w
      end.
Proof.
  intros Hdir. unfold main, bind, lift.
  rewrite (background_path_empty _ Hdir).
  destruct (seed cfg); simpl;
    (destruct (shifts cfg) as [|x sh]; simpl;
     [ | match goal with
         | |- context [initial_parameters ?c ?t ?s ?z] =>
             pose proof (initial_parameters_halts c t s z) as Hh;
             destruct (initial_parameters c t s z); simpl;
             [ destruct (Qeq_bool _ _); simpl | | congruence ]
         end ]);
    do 2 eexists; repeat split; reflexivity.
Qed.

Lemma init_strain_raises dets n size p e :
  init_strain dets n size p = Raised e ->
  e = ValueError "negative dimensions are not allowed" /\ (size < 0)%Z.
Proof.
  revert p. induction dets as [|ifo dets IH]; simpl; intros p.
  - discriminate.
  - destruct (size <? 0)%Z eqn:Hs.
    + intros [= <-]. split; auto. now apply Z.ltb_lt.
    + apply IH.
Qed.

Lemma no_files_message_differs d :
  no_files_message d <> "max() arg is an empty sequence" /\
  no_files_message d <> "negative dimensions are not allowed".
Proof. unfold no_files_message. simpl. split; discriminate. Qed.

(** C9 (which error).  On an empty background directory, indexing the
    sorted listing raises [IndexError]; the body of the [try] raises
    [StopIteration] for no directory at all, so the handler never runs
    and the statement raises what its body raises, never the
    [ValueError] of the handler.  So [main] on an empty directory never
    raises that [ValueError]; once its setup has passed (some shift is
    given, the waveform size is not negative, the duration is not zero)
    what it raises is [IndexError]. *)
Theorem empty_background_raises_index_error {E : Collaborators}
    cfg fuel w :
  dir_entries (background_dir cfg) = Some [] ->
  let d := background_dir cfg in
  first_sorted_entry d = Raised IndexError /\
  background_path d = Raised IndexError /\
  (forall d',
     first_sorted_entry d' <> Raised StopIteration /\
     background_path d' = first_sorted_entry d' /\
     forall msg, background_path d' <> Raised (ValueError msg)) /\
  (forall e w',
     main cfg fuel w = (Raised e, w') ->
     e <> ValueError (no_files_message d)) /\
  (shifts cfg <> [] ->
   (0 <= py_int (sample_rate cfg * waveform_duration cfg)%Q)%Z ->
   Qeq_bool (waveform_duration cfg) 0%Q = false ->
   exists w', main cfg fuel w = (Raised IndexError, w')).
Proof.
  intros H d. split; [|split; [|split; [|split]]].
  - rewrite <- background_path_unhandled. now apply background_path_empty.
  - now apply background_path_empty.
  - intros d'. split; [|split].
    + intros Hs. apply first_sorted_entry_raises in Hs as [Hs | Hs];
        discriminate.
    + apply background_path_unhandled.
    + intros msg Hm. rewrite background_path_unhandled in Hm.
      apply first_sorted_entry_raises in Hm as [Hm | Hm]; discriminate.
  - destruct (no_files_message_differs d) as [Hmax Hneg].
    intros e w'. unfold main, bind, lift.
    rewrite (background_path_empty _ H).
    destruct (seed cfg); simpl;
      (destruct (shifts cfg) as [|x sh]; simpl;
       [ intros [= <- _]; congruence
       | match goal with
         | |- context [initial_parameters ?c ?t ?s ?z] =>
             destruct (initial_parameters c t s z) as [p | e' |] eqn:Hp;
             simpl;
             [ destruct (Qeq_bool _ _); simpl; intros [= <- _]; discriminate
             | apply init_strain_raises in Hp as [-> _];
               intros [= <- _]; congruence
             | discriminate ]
         end ]).
  - intros Hsh Hsize Hdur. unfold main, bind, lift.
    rewrite (background_path_empty _ H), Hdur.
    destruct (seed cfg); simpl;
      (destruct (shifts cfg) as [|x sh]; [congruence|]; simpl;
       match goal with
       | |- context [initial_parameters ?c ?t ?s ?z] =>
           pose proof (initial_parameters_halts c t s z) as Hh;
           destruct (initial_parameters c t s z) as [p | e' |] eqn:Hp;
           simpl;
           [ eauto
           | apply init_strain_raises in Hp as [_ Hp]; simpl in Hsize; lia
           | congruence ]
       end).
Qed.

(** ** Columns the loop never touches *)

Lemma loop_body_untouched {E : Collaborators} cfg zeros st w st' w' k :
  k <> "snr" ->
  ~ In k (map lower (ifos cfg)) ->
  (forall r j, dict_get k (fst (sample_detector_frame r j)) = None) ->
  loop_body cfg zeros st w = (Returned st', w') ->
  dict_get k (parameters st') = dict_get k (parameters st).
Proof.
  intros Hsnr Hifo Hprior H.
  apply loop_body_Returned in H as (params & w1 & b & w2 & Hd & He & H).
  destruct (draw_candidates_run st w) as (params' & r & Hd' & Hparams).
  rewrite Hd' in Hd. injection Hd as <- _.
  assert (Hk : dict_get k params' = None).
  { rewrite Hparams. destruct (n_samples st =? 1)%Z; auto.
    rewrite restrict_get, Hprior. now destruct (dict_mem k (parameters st)). }
  apply evaluate_Returned in He as (_ & _ & _ & _ & _ & _ & _ & _ & Hb).
  assert (Hkb : ~ In k (dict_keys (b_params b))).
  { apply dict_get_None_keys. rewrite Hb, dict_get_set_ne; auto. }
  apply partition_batch_Returned in H
    as (rejected & _ & _ & _ & [(_ & Hp & _) | (_ & Hst & _)]).
  - now rewrite Hp.
  - unfold store_accepted in Hst.
    apply obind_Returned in Hst as (mid & H1 & Hst).
    apply obind_Returned in Hst as (proj & _ & H3).
    erewrite store_strain_other; [| exact Hifo | exact H3].
    eapply store_params_other; [exact Hkb | exact H1].
Qed.

(** C10 (schedule and shifts are bound by position).  When no prior
    draw carries the keys "gps_time" or "shift" (and no detector is
    stored under them), the "gps_time" column of Accepted is the
    injection schedule and the "shift" column is the configured shifts
    repeated [n_samples] times in every state the loop passes through,
    at termination, and in the response set written out: the loop never
    modifies them, whichever candidates are accepted and in however many
    iterations. *)
Theorem schedule_and_shifts_untouched {E : Collaborators}
    cfg times sh size p :
  initial_parameters cfg times sh size = Returned p ->
  ~ In "gps_time" (map lower (ifos cfg)) ->
  ~ In "shift" (map lower (ifos cfg)) ->
  (forall r k,
     dict_get "gps_time" (fst (sample_detector_frame r k)) = None /\
     dict_get "shift" (fst (sample_detector_frame r k)) = None) ->
  let n := length times in
  let zeros := repeat (Scalar 0%Q) n in
  (forall w0 st w,
     reachable cfg zeros (initial_state p n) w0 st w ->
     dict_get "gps_time" (parameters st) = Some (map Scalar times) /\
     dict_get "shift" (parameters st) = Some (repeat (Series sh) n)) /\
  (forall fuel w st' w',
     accumulate cfg zeros fuel (initial_state p n) w = (Returned st', w') ->
     dict_get "gps_time" (parameters st') = Some (map Scalar times) /\
     dict_get "shift" (parameters st') = Some (repeat (Series sh) n) /\
     dict_get "gps_time" (rs_columns (finalize cfg st'))
       = Some (map Scalar times) /\
     dict_get "shift" (rs_columns (finalize cfg st'))
       = Some (repeat (Series sh) n)).
Proof.
  intros Hp Hg Hs Hprior n zeros.
  apply initial_parameters_Returned in Hp as (_ & _ & _ & Hg0 & Hs0).
  specialize (Hg0 Hg). specialize (Hs0 Hs).
  assert (Hreach : forall w0 st w,
            reachable cfg zeros (initial_state p n) w0 st w ->
            dict_get "gps_time" (parameters st) = Some (map Scalar times) /\
            dict_get "shift" (parameters st) = Some (repeat (Series sh) n)).
  { intros w0 st w Hr.
    induction Hr as [|st w st' w' Hr [IHg IHs] Hguard Hstep]; auto.
    split.
    - rewrite <- IHg. eapply loop_body_untouched; eauto; try discriminate.
      intros r j. apply Hprior.
    - rewrite <- IHs. eapply loop_body_untouched; eauto; try discriminate.
      intros r j. apply Hprior. }
  split; [exact Hreach|].
  intros fuel w st' w' H.
  apply accumulate_reachable in H as [Hr _].
  destruct (Hreach _ _ _ Hr) as [Hg' Hs'].
  repeat split; auto; unfold finalize; simpl;
    rewrite !dict_get_del_ne by discriminate; auto.
Qed.

(** * The claims on a concrete run *)

Lemma demo_stored3 :
  initial_parameters Demo.cfg3 Demo.times3 (shifts Demo.cfg3) Demo.size3
  = Returned Demo.stored3.
Proof. vm_compute. reflexivity. Defined.

Lemma demo_run3 :
  accumulate Demo.cfg3 Demo.zeros3 10 Demo.state3 Demo.fresh
  = (Returned Demo.final3, snd Demo.run3).
Proof. vm_compute. reflexivity. Defined.


Lemma batch_is_deficit_and_offset_bounded_witness :
  initial_parameters Demo.cfg3 Demo.times3 (shifts Demo.cfg3) Demo.size3
    = Returned Demo.stored3 /\
  exists t,
    w_trace (snd Demo.run3) = w_trace Demo.fresh ++ t /\
    within_bound 3 0 t.
Proof.
  split; [exact demo_stored3|].
  exact (proj2 (batch_is_deficit_and_offset_bounded Demo.cfg3 Demo.times3
                  (shifts Demo.cfg3) Demo.size3 demo_stored3)
           10 Demo.fresh _ _ demo_run3).
Defined.


Lemma demo_snr_declared : In "snr" (@reject_fields Demo.collaborators).
Proof. simpl. tauto. Defined.


Lemma demo_drawn st w :
  draw_candidates st w
  = (Returned (Demo.candidates_at st w), snd (draw_candidates st w)).
Proof.
  unfold Demo.candidates_at.
  destruct (draw_candidates_run st w) as (params & r & -> & _). reflexivity.
Defined.

Lemma demo_evaluated :
  evaluate (Demo.candidates_at Demo.state3 Demo.fresh)
    (snd (draw_candidates Demo.state3 Demo.fresh))
  = (Returned (Demo.batch_at Demo.state3 Demo.fresh),
     Demo.evaluated_at Demo.state3 Demo.fresh).
Proof. vm_compute. reflexivity. Defined.

Lemma demo_fields st w :
  dict_keys (b_params (Demo.batch_at st w))
    = ["mass_1"; "dec"; "psi"; "ra"; "snr"] ->
  Forall (fun kc => length (snd kc) = length (b_snrs (Demo.batch_at st w)))
    (b_params (Demo.batch_at st w)) ->
  forall k, In k (@reject_fields Demo.collaborators) ->
    exists c, dict_get k (b_params (Demo.batch_at st w)) = Some c /\
              length c = length (b_snrs (Demo.batch_at st w)).
Proof.
  intros Hkeys Hrows k Hk.
  assert (Hin : In k (dict_keys (b_params (Demo.batch_at st w))))
    by (rewrite Hkeys; exact Hk).
  destruct (dict_get k (b_params (Demo.batch_at st w))) as [c|] eqn:Hg.
  - exists c. split; auto.
    exact (dict_get_Forall
             (fun c => length c = length (b_snrs (Demo.batch_at st w)))
             k Hrows Hg).
  - apply dict_get_None_keys in Hg. contradiction.
Defined.

Lemma all_rejected_batch_is_recorded_witness :
  count_true
    (threshold_mask Demo.cfg3 (b_snrs (Demo.batch_at Demo.state3 Demo.fresh)))
    = 0 /\
  exists st',
    loop_body Demo.cfg3 Demo.zeros3 Demo.state3 Demo.fresh
      = (Returned st', Demo.evaluated_at Demo.state3 Demo.fresh) /\
    parameters st' = parameters Demo.state3 /\
    idx st' = 0 /\
    num_injections st' = 3 /\
    dict_get "snr" (rejected_params st')
      = Some (map Scalar (b_snrs (Demo.batch_at Demo.state3 Demo.fresh))).
Proof.
  assert (Hna : count_true
            (threshold_mask Demo.cfg3
               (b_snrs (Demo.batch_at Demo.state3 Demo.fresh))) = 0)
    by (vm_compute; reflexivity).
  split; [exact Hna|].
  destruct (all_rejected_batch_is_recorded Demo.cfg3 Demo.zeros3
              Demo.state3 Demo.fresh
              (demo_drawn Demo.state3 Demo.fresh) demo_evaluated Hna
              (demo_fields Demo.state3 Demo.fresh
                 ltac:(vm_compute; reflexivity)
                 ltac:(vm_compute; repeat constructor)))
    as (st' & Hb & Hp & Hi & _ & Hnum & _ & _ & Hsnr).
  exists st'. split; [exact Hb|]. split; [exact Hp|].
  split; [exact Hi|]. split; [exact Hnum|].
  exact (Hsnr [] demo_snr_declared eq_refl).
Defined.

Lemma demo_inv : loop_inv 3 Demo.state3.
Proof.
  destruct (initial_parameters_Returned _ _ _ _ demo_stored3)
    as (Hpre & Hnd & _).
  exact (@initial_state_inv Demo.collaborators _ _ Hpre Hnd).
Defined.

Lemma demo_detectors : NoDup (map lower (ifos Demo.cfg3)).
Proof.
  repeat constructor; simpl; intros H; repeat destruct H as [H | H];
    try discriminate H; exact H.
Defined.

Lemma demo_evaluated_second :
  evaluate (Demo.candidates_at Demo.state3 Demo.second)
    (snd (draw_candidates Demo.state3 Demo.second))
  = (Returned (Demo.batch_at Demo.state3 Demo.second),
     Demo.evaluated_at Demo.state3 Demo.second).
Proof. vm_compute. reflexivity. Defined.

Lemma demo_body_second :
  loop_body Demo.cfg3 Demo.zeros3 Demo.state3 Demo.second
  = (Returned Demo.next3,
     snd (loop_body Demo.cfg3 Demo.zeros3 Demo.state3 Demo.second)).
Proof. vm_compute. reflexivity. Defined.

Lemma demo_detectors_fresh ifo :
  In ifo (ifos Demo.cfg3) ->
  dict_get (lower ifo) (b_params (Demo.batch_at Demo.state3 Demo.second))
  = None.
Proof. intros [<- | [<- | []]]; vm_compute; reflexivity. Defined.

Lemma accepted_rows_keep_batch_order_witness :
  threshold_mask Demo.cfg3 (b_snrs (Demo.batch_at Demo.state3 Demo.second))
    = [false; true; true] /\
  idx Demo.next3 = 2 /\
  (exists col,
     dict_get "mass_1" (parameters Demo.next3) = Some col /\
     getslice col 0 2 = [Scalar (11 # 1); Scalar (12 # 1)]) /\
  (exists col,
     dict_get "l1" (parameters Demo.next3) = Some col /\
     getslice col 0 2
       = [Series [11 # 1; (11 # 1) + 1]; Series [12 # 1; (12 # 1) + 1]]%Q).
Proof.
  split; [vm_compute; reflexivity|].
  destruct (@accepted_rows_keep_batch_order Demo.collaborators
              Demo.cfg3 Demo.zeros3 3 Demo.state3 Demo.second _ _ _ _ _ _
              (eq_refl : length Demo.zeros3 = 3) demo_inv
              (eq_refl : (0 < n_samples Demo.state3)%Z)
              demo_detectors demo_detectors_fresh
              (demo_drawn Demo.state3 Demo.second)
              demo_evaluated_second demo_body_second
              ltac:(vm_compute; discriminate))
    as (Hi & _ & Hfields & Hstrain & _).
  split; [exact Hi|]. split.
  - destruct (Hfields "mass_1"
                [Scalar (10 # 1); Scalar (11 # 1); Scalar (12 # 1)]
                ltac:(vm_compute; reflexivity)) as (col & Hg & Hs & _).
    exists col. split; [exact Hg | exact Hs].
  - destruct (Hstrain 1 "L1" eq_refl) as (col & Hg & Hs & _).
    exists col. split; [exact Hg|].
    etransitivity; [exact Hs | vm_compute; reflexivity].
Defined.


Lemma demo_draw_get r k f :
  In f ["mass_1"; "dec"; "psi"; "ra"] ->
  exists c, dict_get f (as_dict (fst (Demo.draw r k))) = Some c /\
            length c = k.
Proof.
  assert (Hm : length (Demo.masses r k) = k)
    by (unfold Demo.masses; now rewrite length_map, length_seq).
  assert (Ha : forall x, length (Demo.angles x k) = k)
    by (intros x; apply repeat_length).
  unfold Demo.draw. simpl fst.
  intros Hf. destruct (k =? 1); simpl in Hf;
    repeat destruct Hf as [<- | Hf]; try contradiction;
    (eexists; split; [reflexivity | simpl; auto]).
Defined.

Lemma demo_contract : @batch_contract Demo.silent.
Proof.
  split.
  - intros r k f Hf Hne.
    assert (Hin : In f ["mass_1"; "dec"; "psi"; "ra"]).
    { simpl in Hf. simpl.
      repeat destruct Hf as [<- | Hf]; first [tauto | congruence]. }
    exact (demo_draw_get r k Hin).
  - intros dec psi ra wf. simpl. now rewrite !length_map, length_seq.
Defined.


Lemma empty_background_aborts_before_sampling_witness :
  dir_entries (background_dir Demo.cfg_empty) = Some [] /\
  exists e w',
    main Demo.cfg_empty 10 Demo.fresh = (Raised e, w') /\
    w_trace w' = [] /\
    w_rng w' = 0.
Proof.
  split; [reflexivity|].
  exact (@empty_background_aborts_before_sampling Demo.collaborators
           Demo.cfg_empty 10 Demo.fresh eq_refl).
Defined.

Lemma empty_background_raises_index_error_witness :
  dir_entries (background_dir Demo.cfg_empty) = Some [] /\
  background_path (background_dir Demo.cfg_empty) = Raised IndexError /\
  exists w', main Demo.cfg_empty 10 Demo.fresh = (Raised IndexError, w').
Proof.
  split; [reflexivity|].
  destruct (@empty_background_raises_index_error Demo.collaborators
              Demo.cfg_empty 10 Demo.fresh eq_refl)
    as (_ & Hpath & _ & _ & Hmain).
  split; [exact Hpath|].
  apply Hmain.
  - discriminate.
  - vm_compute. discriminate.
  - reflexivity.
Defined.

Lemma demo_gps_time_free : ~ In "gps_time" (map lower (ifos Demo.cfg3)).
Proof. intros [H | [H | []]]; discriminate H. Defined.

Lemma demo_shift_free : ~ In "shift" (map lower (ifos Demo.cfg3)).
Proof. intros [H | [H | []]]; discriminate H. Defined.

Lemma demo_draw_free r k :
  dict_get "gps_time"
    (fst (@sample_detector_frame Demo.collaborators r k)) = None /\
  dict_get "shift"
    (fst (@sample_detector_frame Demo.collaborators r k)) = None.
Proof.
  unfold sample_detector_frame. simpl. unfold Demo.draw.
  destruct (k =? 1); split; reflexivity.
Defined.

Lemma schedule_and_shifts_untouched_witness :
  initial_parameters Demo.cfg3 Demo.times3 (shifts Demo.cfg3) Demo.size3
    = Returned Demo.stored3 /\
  dict_get "gps_time" (parameters Demo.final3)
    = Some (map Scalar Demo.times3) /\
  dict_get "shift" (parameters Demo.final3)
    = Some (repeat (Series (shifts Demo.cfg3)) 3).
Proof.
  split; [exact demo_stored3|].
  destruct (proj2 (@schedule_and_shifts_untouched Demo.collaborators
                     Demo.cfg3 Demo.times3 (shifts Demo.cfg3) Demo.size3
                     Demo.stored3 demo_stored3 demo_gps_time_free
                     demo_shift_free demo_draw_free)
              10 Demo.fresh _ _ demo_run3) as (Hg & Hs & _).
  split; [exact Hg | exact Hs].
Defined.

(** ** The single draw that opens a run *)

(** In a first iteration the restriction keeps only keys of the freshly
    preallocated storage: the schedule, the shifts and the detectors. *)
Lemma first_single_draw_keys {E : Collaborators} cfg times sh size p w
    params w1 k :
  initial_parameters cfg times sh size = Returned p ->
  length times = 1 ->
  draw_candidates (initial_state p (length times)) w = (Returned params, w1) ->
  In k (dict_keys params) ->
  In k ("gps_time" :: "shift" :: map lower (ifos cfg)).
Proof.
  intros Hp Hone Hd Hk.
  apply initial_parameters_Returned in Hp as (_ & _ & Hkeys & _).
  destruct (draw_candidates_run (initial_state p (length times)) w)
    as (params' & r & Hd' & Hparams).
  rewrite Hd' in Hd. injection Hd as <- _.
  rewrite Hone in Hparams. simpl in Hparams. subst params'.
  apply restrict_keys in Hk as [Hk _]. simpl in Hk. auto.
Qed.

(** C4 (single-sample draws), at a schedule of one injection.  The
    prior's single draw carries "mass_1", "dec", "psi", "ra" and the
    derived "chirp_mass"; the restriction of the first iteration keeps
    none of them, and the iteration - with it the run - raises
    [KeyError] on "dec".  In the last iteration of a longer run the same
    restriction drops "chirp_mass" only. *)
Theorem first_single_draw_loses_every_field :
  initial_parameters Demo.cfg1 Demo.times1 (shifts Demo.cfg1) Demo.size3
    = Returned Demo.stored1 /\
  dict_keys (as_dict (fst (Demo.draw 0 1)))
    = ["mass_1"; "dec"; "psi"; "ra"; "chirp_mass"] /\
  fst (draw_candidates Demo.state1 Demo.fresh) = Returned [] /\
  fst (loop_body Demo.cfg1 (repeat (Scalar 0%Q) 1) Demo.state1 Demo.fresh)
    = Raised (KeyError "dec") /\
  fst (main Demo.cfg1 10 Demo.fresh) = Raised (KeyError "dec") /\
  dict_keys (rs_columns (finalize Demo.cfg3 Demo.final3))
    = ["gps_time"; "shift"; "h1"; "l1"; "mass_1"; "dec"; "psi"; "ra"; "snr"].
Proof. repeat split; vm_compute; reflexivity. Qed.

(** * Further properties of [main] *)

(** ** The order on paths and [sorted] *)

Lemma ascii_compare_refl c : Ascii.compare c c = Eq.
Proof. unfold Ascii.compare. apply N.compare_refl. Qed.

Lemma ascii_compare_trans c1 c2 c3 o :
  Ascii.compare c1 c2 = o -> Ascii.compare c2 c3 = o ->
  Ascii.compare c1 c3 = o.
Proof.
  unfold Ascii.compare. intros H1 H2. destruct o.
  - apply N.compare_eq_iff in H1, H2. apply N.compare_eq_iff. congruence.
  - apply N.compare_lt_iff in H1, H2. apply N.compare_lt_iff.
    eapply N.lt_trans; eauto.
  - apply N.compare_gt_iff in H1, H2. apply N.compare_gt_iff.
    eapply N.lt_trans; eauto.
Qed.

Lemma string_compare_not_Gt_trans s1 s2 s3 :
  String.compare s1 s2 <> Gt -> String.compare s2 s3 <> Gt ->
  String.compare s1 s3 <> Gt.
Proof.
  revert s2 s3. induction s1 as [|c1 s1 IH]; intros [|c2 s2] [|c3 s3];
    simpl; try congruence.
  destruct (Ascii.compare c1 c2) eqn:H12; try congruence;
    destruct (Ascii.compare c2 c3) eqn:H23; try congruence.
  - apply Ascii.compare_eq_iff in H12, H23. subst.
    rewrite ascii_compare_refl. apply IH.
  - apply Ascii.compare_eq_iff in H12. subst. rewrite H23. congruence.
  - apply Ascii.compare_eq_iff in H23. subst. rewrite H12. congruence.
  - rewrite (ascii_compare_trans _ _ _ H12 H23). congruence.
Qed.

Lemma leb_true_trans a b c : leb_true a b -> leb_true b c -> leb_true a c.
Proof.
  unfold leb_true, String.leb. intros H1 H2.
  pose proof (string_compare_not_Gt_trans a b c) as H.
  destruct (String.compare a b); try discriminate;
    destruct (String.compare b c); try discriminate;
    destruct (String.compare a c); auto; exfalso; apply H; congruence.
Qed.

Lemma leb_true_refl a : leb_true a a.
Proof. unfold leb_true. destruct (String.leb_total a a); auto. Qed.

Lemma insert_sorted_perm x l : Permutation (insert_sorted x l) (x :: l).
Proof.
  induction l as [|y l IH]; simpl; auto.
  destruct (String.leb x y); auto.
  rewrite IH. apply perm_swap.
Qed.

Lemma sorted_perm l : Permutation (sorted l) l.
Proof.
  induction l as [|x l IH]; simpl; auto.
  rewrite insert_sorted_perm. now constructor.
Qed.

Lemma insert_sorted_sorted x l :
  StronglySorted leb_true l -> StronglySorted leb_true (insert_sorted x l).
Proof.
  induction 1 as [|y l Hs IH Hy]; simpl.
  - repeat constructor.
  - destruct (String.leb x y) eqn:Hxy.
    + constructor; [now constructor|]. constructor; auto.
      eapply Forall_impl; [|exact Hy]. intros z Hz.
      eapply leb_true_trans; eauto.
    + constructor; auto.
      assert (Hyx : leb_true y x).
      { destruct (String.leb_total x y) as [H | H]; [congruence | exact H]. }
      rewrite Forall_forall. intros z Hz.
      apply (Permutation_in _ (insert_sorted_perm x l)) in Hz.
      destruct Hz as [<- | Hz]; auto.
      rewrite Forall_forall in Hy. auto.
Qed.

Lemma sorted_sorted l : StronglySorted leb_true (sorted l).
Proof.
  induction l as [|x l IH]; simpl; [constructor|].
  now apply insert_sorted_sorted.
Qed.

(** X1.  Whatever the directory listing, [sorted] returns the same
    entries in non-decreasing order; so when the background directory
    has an entry, the path handed to the PSD loader is an entry of the
    directory that sorts at or before every other, and when it has
    none the lookup raises instead of returning. *)
Theorem background_path_is_least_entry d names :
  dir_entries d = Some names ->
  Permutation (sorted names) names /\
  StronglySorted leb_true (sorted names) /\
  (names <> [] ->
   exists p,
     background_path d = Returned p /\
     In p (map (path_join (dir_path d)) names) /\
     forall q, In q (map (path_join (dir_path d)) names) -> leb_true p q) /\
  (names = [] -> forall p, background_path d <> Returned p).
Proof.
  intros Hd. split; [apply sorted_perm|]. split; [apply sorted_sorted|].
  split.
  - intros Hne. rewrite background_path_unhandled.
    unfold first_sorted_entry, iterdir. rewrite Hd. simpl.
    set (paths := map (path_join (dir_path d)) names).
    pose proof (sorted_perm paths) as Hperm.
    pose proof (sorted_sorted paths) as Hsort.
    destruct (sorted paths) as [|p rest] eqn:Hs.
    + apply Permutation_nil in Hperm. unfold paths in Hperm.
      destruct names; [congruence | discriminate].
    + exists p. split; [reflexivity|]. split.
      * apply (Permutation_in _ Hperm). now left.
      * intros q Hq. apply Permutation_sym in Hperm.
        apply (Permutation_in _ Hperm) in Hq.
        destruct Hq as [<- | Hq]; [apply leb_true_refl|].
        apply StronglySorted_inv in Hsort as [_ Hall].
        rewrite Forall_forall in Hall. auto.
  - intros -> p. rewrite (background_path_empty _ Hd). discriminate.
Qed.

(** ** What the loop logs and what [main] writes *)

Lemma files_written_app t1 t2 :
  files_written (t1 ++ t2) = files_written t1 ++ files_written t2.
Proof.
  induction t1 as [|e t1 IH]; simpl; auto.
  destruct e; simpl; auto. now rewrite IH.
Qed.





(** ** What is written *)

Lemma dict_del_Forall (P : key * column -> Prop) k d :
  Forall P d -> Forall P (dict_del k d).
Proof.
  induction 1 as [|[k' c'] d Hx Hd IH]; simpl; [constructor|].
  destruct (String.eqb k k'); auto.
Qed.

Lemma dict_get_del_eq k d :
  NoDup (dict_keys d) -> dict_get k (dict_del k d) = None.
Proof.
  induction d as [|[k' c'] d IH]; simpl; auto.
  intros Hnd. apply NoDup_cons_iff in Hnd as [Hnotin Hnd].
  destruct (String.eqb k k') eqn:Hk.
  - apply String.eqb_eq in Hk. subst. now apply dict_get_None_keys.
  - simpl. rewrite Hk. auto.
Qed.

Lemma dict_del_keys k d k' :
  In k' (dict_keys (dict_del k d)) -> In k' (dict_keys d).
Proof.
  induction d as [|[k0 c0] d IH]; simpl; auto.
  destruct (String.eqb k k0); simpl; tauto.
Qed.

Lemma dict_del_NoDup k d :
  NoDup (dict_keys d) -> NoDup (dict_keys (dict_del k d)).
Proof.
  induction d as [|[k0 c0] d IH]; simpl; auto.
  intros Hnd. apply NoDup_cons_iff in Hnd as [Hnotin Hnd].
  destruct (String.eqb k k0); simpl; auto.
  constructor; auto. intros Hin. apply dict_del_keys in Hin. tauto.
Qed.

Lemma ledger_append_keys ours theirs :
  dict_keys (ledger_append ours theirs) = dict_keys ours.
Proof.
  unfold ledger_append, dict_keys. rewrite map_map. now apply map_ext.
Qed.

Lemma empty_ledger_inv {E : Collaborators} p n :
  ledger_inv (initial_state p n).
Proof.
  unfold ledger_inv, initial_state, empty_ledger, dict_keys. simpl. split.
  - rewrite map_map. simpl. apply map_id.
  - apply Forall_forall. intros kc Hin.
    apply in_map_iff in Hin as (k & <- & _). reflexivity.
Qed.

Lemma loop_body_ledger_inv {E : Collaborators} cfg zeros st w st' w' :
  ledger_inv st ->
  loop_body cfg zeros st w = (Returned st', w') ->
  ledger_inv st'.
Proof.
  intros [Hkeys Hrows] H.
  apply loop_body_Returned in H as (params & w1 & b & w2 & _ & _ & H).
  apply partition_batch_Returned in H
    as (rejected & Hrej & Hnum & Hrp & Hcases).
  set (mask := threshold_mask cfg (b_snrs b)) in *.
  assert (Hm : length mask = length (b_snrs b))
    by (unfold mask, threshold_mask; apply length_map).
  pose proof (count_true_negb mask) as Hsplit.
  assert (Hi : idx st' = idx st + count_true mask).
  { destruct Hcases as [(Hna & _ & _ & Hi & _) | (_ & _ & _ & Hi & _)];
      rewrite Hi; lia. }
  unfold ledger_inv. rewrite Hrp, ledger_append_keys. split; auto.
  unfold ledger_append. apply Forall_map.
  rewrite Forall_forall in Hrows |- *. intros [k c] Hin. simpl.
  specialize (Hrows _ Hin). simpl in Hrows.
  assert (Hk : In k reject_fields).
  { rewrite <- Hkeys. change k with (fst (k, c)). now apply in_map. }
  edestruct collect_rejected_field as (col & _ & Hlen & Hget);
    [exact Hrej | exact Hk |].
  rewrite Hget, length_app, (length_select _ _ Hlen), Hnum, Hi. lia.
Qed.

Lemma reachable_ledger_inv {E : Collaborators} cfg zeros st0 w0 st w :
  ledger_inv st0 -> reachable cfg zeros st0 w0 st w -> ledger_inv st.
Proof.
  intros H0 Hr. induction Hr; auto.
  eapply loop_body_ledger_inv; eauto.
Qed.

Lemma main_Returned {E : Collaborators} cfg fuel w names w' :
  main cfg fuel w = (Returned names, w') ->
  exists m p bg st' w0 w1,
    py_max (shifts cfg) = Returned m /\
    initial_parameters cfg
      (calc_segment_injection_times (start cfg) (stop cfg - m)%Q
         (spacing cfg) (buffer cfg) (waveform_duration cfg))
      (shifts cfg)
      (py_int (sample_rate cfg * waveform_duration cfg)%Q) = Returned p /\
    Qeq_bool (waveform_duration cfg) 0%Q = false /\
    background_path (background_dir cfg) = Returned bg /\
    w_trace w0 = w_trace w ++ [PsdsLoaded bg] /\
    accumulate cfg
      (repeat (Scalar 0%Q)
         (length (calc_segment_injection_times (start cfg) (stop cfg - m)%Q
                    (spacing cfg) (buffer cfg) (waveform_duration cfg))))
      fuel
      (initial_state p
         (length (calc_segment_injection_times (start cfg) (stop cfg - m)%Q
                    (spacing cfg) (buffer cfg) (waveform_duration cfg))))
      w0 = (Returned st', w1) /\
    w_trace w' =
      w_trace w1 ++
        [FileWritten (fst names) (Responses (finalize cfg st'));
         FileWritten (snd names) (Injections (rejected_params st'))].
Proof.
  unfold main, bind, lift, log, ret.
  destruct (seed cfg); simpl;
    (destruct (py_max (shifts cfg)) as [m | e |]; simpl; try discriminate;
     match goal with
     | |- context [initial_parameters ?c ?t ?s ?z] =>
         destruct (initial_parameters c t s z) as [p | e |] eqn:Hp; simpl;
         try discriminate
     end;
     (destruct (Qeq_bool _ _) eqn:Hq; simpl; try discriminate);
     (destruct (background_path (background_dir cfg)) as [bg | e |]; simpl;
      try discriminate);
     match goal with
     | |- context [accumulate ?c ?z ?f ?s ?w0] =>
         destruct (accumulate c z f s w0) as [[st' | e |] w1] eqn:Hacc;
         try discriminate
     end;
     intros [= <- <-]; simpl;
     exists m, p, bg, st'; do 2 eexists;
     split; [reflexivity|]; split; [exact Hp|]; split; [reflexivity|];
     split; [reflexivity|]; split; [|split; [exact Hacc|]];
     simpl; rewrite <- ?app_assoc; reflexivity).
Qed.

(** X3 (what the two files hold).  When [main] returns, the response
    set it wrote has the configured sample rate and duration, no column
    under the names of its three scalars, and exactly one row per
    injection time of the schedule in every column; the rejected set it
    wrote has exactly the declared fields, each with as many rows as
    candidates were drawn beyond the schedule's length:
    [num_injections] is the schedule's length plus the rejected rows. *)
Theorem written_sets_are_consistent {E : Collaborators}
    cfg fuel w names w' :
  main cfg fuel w = (Returned names, w') ->
  exists m rs rej t,
    py_max (shifts cfg) = Returned m /\
    w_trace w' =
      t ++ [FileWritten (fst names) (Responses rs);
            FileWritten (snd names) (Injections rej)] /\
    let n := length (calc_segment_injection_times (start cfg)
                       (stop cfg - m)%Q (spacing cfg) (buffer cfg)
                       (waveform_duration cfg)) in
    preallocated n (rs_columns rs) /\
    rs_sample_rate rs = sample_rate cfg /\
    rs_duration rs = waveform_duration cfg /\
    dict_get "sample_rate" (rs_columns rs) = None /\
    dict_get "duration" (rs_columns rs) = None /\
    dict_get "num_injections" (rs_columns rs) = None /\
    dict_keys rej = reject_fields /\
    Forall (fun kc => n + length (snd kc) = rs_num_injections rs) rej.
Proof.
  intros H.
  apply main_Returned in H
    as (m & p & bg & st' & w0 & w1 & Hm & Hp & _ & _ & _ & Hacc & Ht).
  set (times := calc_segment_injection_times (start cfg) (stop cfg - m)%Q
                  (spacing cfg) (buffer cfg) (waveform_duration cfg)) in *.
  apply initial_parameters_Returned in Hp as (Hpre & Hnd & _).
  assert (Hz : length (repeat (Scalar 0%Q) (length times)) = length times)
    by apply repeat_length.
  pose proof (initial_state_inv Hpre Hnd) as Hinv.
  pose proof Hacc as Hr. apply accumulate_reachable in Hr as [Hr _].
  destruct (reachable_inv Hz Hinv Hr) as [(_ & _ & Hpre' & Hnd') _].
  destruct (accumulate_trace cfg _ Hz fuel w0 Hinv Hacc)
    as (_ & _ & _ & Hi & _).
  destruct (reachable_ledger_inv (empty_ledger_inv p (length times)) Hr)
    as [Hkeys Hrows].
  exists m, (finalize cfg st'), (rejected_params st'), (w_trace w1).
  split; [exact Hm|]. split; [exact Ht|].
  unfold finalize. simpl.
  split; [now repeat apply dict_del_Forall|].
  split; [reflexivity|]. split; [reflexivity|].
  split; [|split; [|split; [|split]]].
  - rewrite !dict_get_del_ne by discriminate. now apply dict_get_del_eq.
  - rewrite dict_get_del_ne by discriminate.
    apply dict_get_del_eq. now apply dict_del_NoDup.
  - apply dict_get_del_eq. now repeat apply dict_del_NoDup.
  - exact Hkeys.
  - rewrite Hi in Hrows. exact Hrows.
Qed.

(** ** Setup: what is checked before the loop *)

Lemma init_strain_succeeds dets n size p :
  (0 <= size)%Z -> exists p', init_strain dets n size p = Returned p'.
Proof.
  intros Hs. revert p. induction dets as [|ifo dets IH]; simpl; intros p.
  - eauto.
  - replace (size <? 0)%Z with false by (symmetry; apply Z.ltb_ge; lia).
    apply IH.
Qed.

Lemma init_strain_negative ifo dets n size p :
  (size < 0)%Z ->
  init_strain (ifo :: dets) n size p
  = Raised (ValueError "negative dimensions are not allowed").
Proof.
  intros Hs. simpl.
  now replace (size <? 0)%Z with true by (symmetry; apply Z.ltb_lt; lia).
Qed.

Lemma py_int_zero_duration x d :
  Qeq_bool d 0%Q = true -> py_int (x * d)%Q = 0%Z.
Proof.
  intros H. apply Qeq_bool_iff in H. unfold Qeq in H. simpl in H.
  unfold py_int. simpl. rewrite Z.mul_1_r in H. rewrite H, Z.mul_0_r.
  reflexivity.
Qed.

(** X4 (setup errors come first).  Whatever the background directory
    and the prior: with no shift given [main] raises the [ValueError]
    of [max]; with shifts given and a zero waveform duration it raises
    [ZeroDivisionError]; with shifts and a detector given and a negative
    waveform size it raises the [ValueError] of [np.zeros].  In each
    case nothing has been logged: no PSD was loaded, nothing sampled,
    nothing written. *)
Theorem setup_errors_come_first {E : Collaborators} cfg fuel w :
  (shifts cfg = [] ->
   exists w',
     main cfg fuel w
       = (Raised (ValueError "max() arg is an empty sequence"), w') /\
     w_trace w' = w_trace w) /\
  (shifts cfg <> [] ->
   Qeq_bool (waveform_duration cfg) 0%Q = true ->
   exists w',
     main cfg fuel w = (Raised ZeroDivisionError, w') /\
     w_trace w' = w_trace w) /\
  (shifts cfg <> [] -> ifos cfg <> [] ->
   (py_int (sample_rate cfg * waveform_duration cfg)%Q < 0)%Z ->
   exists w',
     main cfg fuel w
       = (Raised (ValueError "negative dimensions are not allowed"), w') /\
     w_trace w' = w_trace w).
Proof.
  split; [|split].
  - intros Hs. unfold main, bind, lift. rewrite Hs.
    destruct (seed cfg); simpl; eauto.
  - intros Hs Hd. unfold main, bind, lift.
    destruct (shifts cfg) as [|x sh]; [congruence|].
    unfold initial_parameters. rewrite (py_int_zero_duration _ _ Hd), Hd.
    destruct (seed cfg); simpl;
      match goal with
      | |- context [init_strain ?a ?b ?c ?d] =>
          destruct (init_strain_succeeds a b d (Z.le_refl 0)) as (p & ->)
      end; simpl; eauto.
  - intros Hs Hi Hneg. unfold main, bind, lift.
    destruct (shifts cfg) as [|x sh]; [congruence|].
    unfold initial_parameters.
    destruct (ifos cfg) as [|ifo dets]; [congruence|].
    destruct (seed cfg); simpl;
      replace (py_int (sample_rate cfg * waveform_duration cfg) <? 0)%Z
        with true by (symmetry; apply Z.ltb_lt; exact Hneg);
      simpl; eauto.
Qed.

(** X5 (an empty schedule).  When the scheduler returns no injection
    time and the setup passes, [main] returns for every iteration
    budget, zero included, without a single draw from the prior: it
    loads the PSDs and writes a response set whose columns are all
    empty and whose [num_injections] is zero, then the still empty
    rejected set. *)
Theorem empty_schedule_writes_empty_sets {E : Collaborators}
    cfg fuel w m bg :
  py_max (shifts cfg) = Returned m ->
  calc_segment_injection_times (start cfg) (stop cfg - m)%Q
    (spacing cfg) (buffer cfg) (waveform_duration cfg) = [] ->
  (0 <= py_int (sample_rate cfg * waveform_duration cfg)%Q)%Z ->
  Qeq_bool (waveform_duration cfg) 0%Q = false ->
  background_path (background_dir cfg) = Returned bg ->
  exists w' rs,
    main cfg fuel w
      = (Returned (path_join (output_dir cfg) "waveforms.h5",
                   path_join (output_dir cfg) "rejected-parameters.h5"),
         w') /\
    w_trace w' =
      w_trace w ++
        [PsdsLoaded bg;
         FileWritten (path_join (output_dir cfg) "waveforms.h5")
           (Responses rs);
         FileWritten (path_join (output_dir cfg) "rejected-parameters.h5")
           (Injections empty_ledger)] /\
    preallocated 0 (rs_columns rs) /\
    rs_num_injections rs = 0.
Proof.
  intros Hm Hcalc Hsize Hdur Hbg.
  unfold main, bind, lift, log, ret. rewrite Hm. cbv zeta.
  rewrite Hcalc, Hdur, Hbg.
  destruct (initial_parameters cfg [] (shifts cfg)
              (py_int (sample_rate cfg * waveform_duration cfg)))
    as [p | e |] eqn:Hp.
  - pose proof (initial_parameters_Returned _ _ _ _ Hp) as (Hpre & _).
    destruct (seed cfg); destruct fuel; simpl;
      (do 2 eexists; split; [reflexivity|]; simpl;
       rewrite <- ?app_assoc; split; [reflexivity|];
       split; [now repeat apply dict_del_Forall | reflexivity]).
  - apply init_strain_raises in Hp as [_ Hp]. lia.
  - now apply initial_parameters_halts in Hp.
Qed.

(** ** Storage only grows *)



Section WriteOnce.

Variable zeros : column.
Variable n : nat.
Hypothesis zeros_rows : length zeros = n.





End WriteOnce.



(** ** Counting the candidates *)

Lemma loop_body_counts {E : Collaborators} cfg zeros st w st' w' :
  batch_contract ->
  loop_body cfg zeros st w = (Returned st', w') ->
  num_injections st' = num_injections st + Z.to_nat (n_samples st) /\
  exists t, w_trace w' = w_trace w ++ t /\
            batches_requested t = [Z.to_nat (n_samples st)].
Proof.
  intros [Hfields Hlen] H.
  apply loop_body_Returned in H as (params & w1 & b & w2 & Hd & He & H).
  destruct (draw_candidates_run st w) as (params' & r & Hd' & Hparams).
  rewrite Hd' in Hd. injection Hd as <- <-.
  set (k := Z.to_nat (n_samples st)) in *.
  pose proof (evaluate_trace _ _ He) as Hw2. simpl in Hw2.
  apply evaluate_Returned in He
    as (dec & psi & ra & Hdec & _ & _ & Hproj & Hs & _).
  assert (Hraw : dict_get "dec" (fst (sample_detector_frame (w_rng w) k))
                 = Some dec).
  { rewrite Hparams in Hdec. destruct (n_samples st =? 1)%Z; auto.
    rewrite restrict_get in Hdec.
    destruct (dict_mem "dec" (parameters st)); [auto | discriminate]. }
  destruct (Hfields (w_rng w) k "dec") as (c & Hc & Hk);
    [simpl; tauto | discriminate |].
  rewrite Hraw in Hc. injection Hc as <-.
  assert (Hsl : length (b_snrs b) = k)
    by (rewrite Hs, Hproj, Hlen; exact Hk).
  apply partition_batch_Returned in H
    as (rejected & _ & Hnum & _ & [(_ & _ & _ & _ & ->) |
                                   (_ & _ & _ & _ & ->)]);
    (split; [lia|]); subst w2; simpl; eexists;
    rewrite <- ?app_assoc; (split; [reflexivity|]); reflexivity.
Qed.

(** X8 (every candidate drawn is counted).  When the collaborators
    honour their contract on a batch, after any number of iterations
    [num_injections] has grown by exactly the sum of the batch sizes
    the trace records as requested from the prior. *)
Theorem drawn_candidates_are_counted {E : Collaborators}
    cfg zeros st0 w0 st w :
  batch_contract ->
  reachable cfg zeros st0 w0 st w ->
  exists t,
    w_trace w = w_trace w0 ++ t /\
    num_injections st = num_injections st0 + list_sum (batches_requested t).
Proof.
  intros Hc Hr.
  induction Hr as [|st w st' w' Hr (t & Ht & Hn) Hguard Hstep].
  - exists []. rewrite app_nil_r. simpl. split; auto.
  - destruct (loop_body_counts _ _ _ _ Hc Hstep) as (Hn' & t' & Ht' & Hb).
    exists (t ++ t'). rewrite Ht', Ht, app_assoc. split; auto.
    rewrite batches_requested_app, list_sum_app, Hb, Hn', Hn. simpl. lia.
Qed.

(** ** The single-draw filter *)

Lemma restrict_keys_filter params p :
  dict_keys (restrict params p)
  = filter (fun k => dict_mem k params) (dict_keys p).
Proof.
  unfold dict_mem. induction p as [|[k c] p IH]; simpl; auto.
  destruct (dict_get k params); simpl; now rewrite IH.
Qed.

(** X9 (when and what the filter drops).  An iteration hands on the
    prior's draw untouched unless exactly one row is left to fill.
    Then it hands on, in the order of Accepted's columns, exactly the
    fields that are both in the draw and already columns of Accepted,
    each with the draw's values: a field of the draw survives if and
    only if Accepted already has a column of its name. *)
Theorem single_draw_filter {E : Collaborators} st w params w1 :
  NoDup (dict_keys (parameters st)) ->
  draw_candidates st w = (Returned params, w1) ->
  let drawn := fst (sample_detector_frame (w_rng w)
                      (Z.to_nat (n_samples st))) in
  (n_samples st <> 1%Z -> params = drawn) /\
  (n_samples st = 1%Z ->
   dict_keys params
     = filter (fun k => dict_mem k drawn) (dict_keys (parameters st)) /\
   forall k,
     dict_get k params
     = if dict_mem k (parameters st) then dict_get k drawn else None).
Proof.
  intros Hnd Hd drawn.
  destruct (draw_candidates_run st w) as (params' & r & Hd' & Hparams).
  rewrite Hd' in Hd. injection Hd as <- _. fold drawn in Hparams.
  split.
  - intros Hne. apply Z.eqb_neq in Hne. now rewrite Hne in Hparams.
  - intros Hone. rewrite Hone in Hparams. simpl in Hparams. subst params'.
    split; [apply restrict_keys_filter | apply restrict_get].
Qed.

(** ** What can be raised *)













(** ** Iterations that cannot fail *)

Lemma select_Forall {A} (P : A -> Prop) (l : list A) mask :
  Forall P l -> Forall P (select l mask).
Proof.
  intros H. revert mask. induction H as [|x l Hx Hl IH]; intros [|b mask];
    simpl; try constructor.
  destruct b; auto.
Qed.

Lemma take_axis1_total rows i :
  Forall (fun row => i < length row) rows ->
  exists c, take_axis1 rows i = Returned c.
Proof.
  induction 1 as [|r rows Hr _ (c & IH)]; simpl; eauto.
  destruct (nth_error r i) as [x|] eqn:Hx.
  - rewrite IH. simpl. eauto.
  - apply nth_error_None in Hx. lia.
Qed.

Lemma restrict_Forall (P : column -> Prop) params p :
  Forall (fun kc => P (snd kc)) params ->
  Forall (fun kc => P (snd kc)) (restrict params p).
Proof.
  intros H. induction p as [|[k c] p IH]; simpl; [constructor|].
  destruct (dict_get k params) as [c'|] eqn:Hg; auto.
  constructor; auto. simpl. exact (dict_get_Forall P k H Hg).
Qed.

Lemma dict_mem_keys k d : dict_mem k d = true <-> In k (dict_keys d).
Proof.
  unfold dict_mem. destruct (dict_get k d) eqn:Hg.
  - split; auto. intros _. eapply dict_get_Some_keys; eauto.
  - apply dict_get_None_keys in Hg. split; [discriminate | tauto].
Qed.

Section Progress.

Variable zeros : column.
Variable n : nat.
Hypothesis zeros_rows : length zeros = n.

Lemma store_total p k a v :
  preallocated n p -> a + length v <= n ->
  exists p', store zeros p k a (a + length v) v = Returned p'.
Proof.
  intros Hp Hfit. unfold store. fold (column_of zeros p k).
  assert (Hrows : length (column_of zeros p k) = n)
    by (eapply column_of_rows; eauto).
  rewrite setitem_slice_exact by (rewrite Hrows; exact Hfit).
  simpl. eauto.
Qed.

Lemma store_params_total items mask a p :
  Forall (fun kc => length (snd kc) = length mask) items ->
  preallocated n p -> a + count_true mask <= n ->
  exists p',
    store_params zeros items mask a (a + count_true mask) p = Returned p'.
Proof.
  intros Hitems. revert p.
  induction Hitems as [|[k v] items Hv _ IH]; intros p Hp Hfit.
  - simpl. eauto.
  - cbn [store_params]. simpl in Hv.
    unfold getitem_mask. rewrite Hv, Nat.eqb_refl. cbn [obind].
    destruct (@store_total p k a (select v mask) Hp) as (out & Hout).
    { rewrite (length_select v mask Hv). exact Hfit. }
    rewrite (length_select v mask Hv) in Hout. rewrite Hout. cbn [obind].
    apply IH; auto. eapply store_preallocated; eauto.
Qed.

Lemma store_strain_total dets i projected a p :
  Forall (fun row => i + length dets <= length row) projected ->
  preallocated n p -> a + length projected <= n ->
  exists p',
    store_strain zeros dets i projected a (a + length projected) p
    = Returned p'.
Proof.
  revert i p. induction dets as [|ifo dets IH];
    intros i p Hrows Hp Hfit.
  - simpl. eauto.
  - cbn [store_strain].
    destruct (@take_axis1_total projected i) as (c & Hc).
    { eapply Forall_impl; [|exact Hrows]. simpl. intros row Hrow. lia. }
    rewrite Hc. cbn [obind].
    apply take_axis1_Returned in Hc as [Hl _].
    destruct (@store_total p (lower ifo) a c Hp) as (out & Hout);
      [rewrite Hl; exact Hfit|].
    rewrite Hl in Hout. rewrite Hout. cbn [obind]. apply IH; auto.
    + eapply Forall_impl; [|exact Hrows]. simpl. intros row Hrow. lia.
    + eapply store_preallocated; eauto.
Qed.

End Progress.

Section Contracts.

Context {E : Collaborators}.
Variable cfg : config.
Variable zeros : column.
Variable n : nat.
Hypothesis zeros_rows : length zeros = n.
Hypothesis honoured : batch_contract.
Hypothesis shaped : shape_contract cfg.

Lemma draw_candidates_fields st w params w1 :
  (n_samples st = 1%Z -> fields_stored st) ->
  draw_candidates st w = (Returned params, w1) ->
  Forall (fun kc => length (snd kc) = Z.to_nat (n_samples st)) params /\
  forall f,
    In f ("dec" :: "psi" :: "ra" :: reject_fields) -> f <> "snr" ->
    exists c, dict_get f params = Some c /\
              length c = Z.to_nat (n_samples st).
Proof.
  intros Hstored Hd.
  destruct honoured as [Hfields _]. destruct shaped as [Hcols _].
  destruct (draw_candidates_run st w) as (params' & r & Hd' & Hparams).
  rewrite Hd' in Hd. injection Hd as <- _.
  set (k := Z.to_nat (n_samples st)) in *.
  specialize (Hcols (w_rng w) k). specialize (Hfields (w_rng w) k).
  rewrite Hparams. destruct (n_samples st =? 1)%Z eqn:Hone.
  - apply Z.eqb_eq in Hone. specialize (Hstored Hone). split.
    + now apply (restrict_Forall (fun c => length c = k)).
    + intros f Hf Hne. rewrite restrict_get, (Hstored f Hf Hne). auto.
  - split; auto.
Qed.

(** Under the contracts an iteration returns, unless it is a single
    draw for which Accepted lacks a field. *)
Lemma loop_body_progress st w :
  loop_inv n st -> (0 < n_samples st)%Z ->
  (n_samples st = 1%Z -> fields_stored st) ->
  exists st' w' snrs,
    loop_body cfg zeros st w = (Returned st', w') /\
    (exists projected, snrs = compute_network_snr projected) /\
    length snrs = Z.to_nat (n_samples st) /\
    idx st' = idx st + count_true (threshold_mask cfg snrs) /\
    n_samples st'
      = (n_samples st - Z.of_nat (count_true (threshold_mask cfg snrs)))%Z /\
    (idx st' = idx st -> parameters st' = parameters st) /\
    (idx st' <> idx st -> fields_stored st').
Proof.
  intros Hinv Hguard Hstored.
  pose proof Hinv as (Hsum & Hpos & Hpre & Hnd).
  destruct (draw_candidates st w) as [o w1] eqn:Hd.
  destruct (draw_candidates_run st w) as (params & r & Hd' & _).
  rewrite Hd in Hd'. injection Hd' as -> ->.
  set (k := Z.to_nat (n_samples st)) in *.
  edestruct draw_candidates_fields as [Hcols Hget];
    [exact Hstored | exact Hd |].
  fold k in Hcols, Hget.
  pose proof (draw_candidates_NoDup _ _ Hnd Hd) as Hkeys.
  destruct (Hget "dec") as (dec & Hdec & Hdl);
    [simpl; tauto | discriminate |].
  destruct (Hget "psi") as (psi & Hpsi & _);
    [simpl; tauto | discriminate |].
  destruct (Hget "ra") as (ra & Hra & _);
    [simpl; tauto | discriminate |].
  destruct honoured as [_ Hlen]. destruct shaped as [_ Hproj].
  set (projected := compute_observed_strain dec psi ra (generator params)).
  set (snrs := compute_network_snr projected).
  set (b := {| b_params := dict_set "snr" (map Scalar snrs) params;
               b_projected := projected;
               b_snrs := snrs |}).
  set (w1 := {| w_rng := r; w_trace := w_trace w ++ [PriorSampled k] |}) in *.
  set (w2 := {| w_rng := r;
                w_trace := w_trace w1 ++ [WaveformsGenerated] |}).
  assert (He : evaluate params w1 = (Returned b, w2)).
  { unfold evaluate, bind, log, lift, ret, getitem.
    rewrite Hdec, Hpsi, Hra. reflexivity. }
  assert (Hsl : length snrs = k)
    by (unfold snrs, projected; rewrite Hlen; exact Hdl).
  destruct (Hproj dec psi ra (generator params)) as [Hpl Hprows].
  fold projected in Hpl, Hprows.
  set (mask := threshold_mask cfg snrs).
  assert (Hml : length mask = k)
    by (unfold mask, threshold_mask; now rewrite length_map).
  assert (Hbcols : Forall (fun kc => length (snd kc) = length mask)
                     (b_params b)).
  { simpl. rewrite Hml.
    apply (dict_set_Forall (fun c => length c = k)); auto.
    now rewrite length_map. }
  assert (Hbget : forall f, In f reject_fields ->
            exists c, dict_get f (b_params b) = Some c /\
                      length c = length (map negb mask)).
  { intros f Hf. simpl. rewrite length_map, Hml.
    destruct (string_dec f "snr") as [-> | Hne].
    - rewrite dict_get_set_eq. eexists. split; eauto.
      now rewrite length_map.
    - rewrite dict_get_set_ne by congruence. apply Hget; simpl; tauto. }
  destruct (collect_rejected_total reject_fields (b_params b)
              (map negb mask) [] Hbget) as (rej & Hrej).
  assert (Hna_le : idx st + count_true mask <= n).
  { pose proof (count_true_le mask). lia. }
  destruct (count_true mask =? 0) eqn:Hna.
  - apply Nat.eqb_eq in Hna.
    eexists _, w2, snrs. split.
    + eapply loop_body_zero_acceptance; eauto.
    + simpl. fold mask. rewrite Hna, Nat.add_0_r, Z.sub_0_r.
      split; [now exists projected|]. repeat split; auto. congruence.
  - edestruct store_params_total as (mid & Hmid);
      [exact zeros_rows | exact Hbcols | exact Hpre | exact Hna_le |].
    assert (Hmidpre : preallocated n mid)
      by (eapply store_params_preallocated; eauto).
    assert (Hsel : getitem_mask projected mask
                   = Returned (select projected mask)).
    { unfold getitem_mask. now rewrite Hpl, Hdl, Hml, Nat.eqb_refl. }
    assert (Hsl' : length (select projected mask) = count_true mask)
      by (apply length_select; congruence).
    edestruct store_strain_total
      with (dets := ifos cfg) (i := 0) (projected := select projected mask)
           (a := idx st) (p := mid) as (out & Hout);
      [ exact zeros_rows
      | apply select_Forall; exact Hprows
      | exact Hmidpre
      | rewrite Hsl'; exact Hna_le | ].
    rewrite Hsl' in Hout.
    eexists _, _, snrs. split.
    + unfold loop_body, bind. rewrite Hd, He.
      unfold partition_batch, bind, lift, log, ret.
      cbn [b_snrs b]. fold mask. rewrite Hrej, Hna.
      unfold store_accepted. cbn [b_params b_projected b].
      change (dict_set "snr" (map Scalar snrs) params) with (b_params b).
      rewrite Hmid. cbn [obind]. rewrite Hsel. cbn [obind].
      rewrite Hout. reflexivity.
    + simpl. fold mask. apply Nat.eqb_neq in Hna.
      split; [now exists projected|].
      split; [exact Hsl|]. split; [reflexivity|]. split; [reflexivity|].
      split; [intros Heq; lia|].
      intros _ f Hf Hne. simpl.
      destruct (Hget f Hf Hne) as (c & Hc & _).
      assert (Hbc : dict_get f (b_params b) = Some c)
        by (simpl; rewrite dict_get_set_ne by congruence; exact Hc).
      assert (Hbkeys : NoDup (dict_keys (b_params b)))
        by (simpl; now apply dict_set_NoDup).
      edestruct store_params_written as [_ Hfm];
        [exact zeros_rows | exact Hbkeys | exact Hpre | exact Hna_le
         | exact Hmid | exact Hbc |].
      apply dict_mem_keys. eapply store_strain_keys; [exact Hout|].
      eapply dict_get_Some_keys; eauto.
Qed.

End Contracts.

Section NeverRaises.

Context {E : Collaborators}.
Variable cfg : config.
Variable zeros : column.
Variable n : nat.
Hypothesis zeros_rows : length zeros = n.
Hypothesis honoured : batch_contract.
Hypothesis shaped : shape_contract cfg.
Hypothesis not_single : n <> 1.

Lemma accumulate_never_raises fuel st w o w' :
  loop_inv n st ->
  (idx st <> 0 -> fields_stored st) ->
  accumulate cfg zeros fuel st w = (o, w') ->
  forall e, o <> Raised e.
Proof.
  revert st w. induction fuel as [|fuel IH]; intros st w Hinv Hstored;
    simpl; destruct (0 <? n_samples st)%Z eqn:Hg;
    try (intros [= <- _]; discriminate).
  apply Z.ltb_lt in Hg.
  assert (Hone : n_samples st = 1%Z -> fields_stored st).
  { intros H1. apply Hstored. destruct Hinv as (Hsum & _). lia. }
  edestruct loop_body_progress
    as (st' & w1 & snrs & Hb & _ & _ & _ & _ & Hsame & Hnew);
    [exact zeros_rows | exact honoured | exact shaped | exact Hinv
     | exact Hg | exact Hone |].
  unfold bind. rewrite Hb. apply IH.
  - edestruct loop_body_inv as [Hinv' _];
      [exact zeros_rows | exact Hinv | exact Hg | exact Hb | exact Hinv'].
  - intros Hi. destruct (Nat.eq_dec (idx st') (idx st)) as [Heq | Hne].
    + unfold fields_stored. rewrite (Hsame Heq).
      apply Hstored. congruence.
    + now apply Hnew.
Qed.

End NeverRaises.

(** X11 (the loop does not fail on well-behaved collaborators).  Let
    the collaborators honour their contracts: a draw of [k] candidates
    has [k] rows in every column and carries the sky angles and the
    declared fields, the projection returns a row per candidate with an
    entry per detector, the evaluation an SNR per row.  Then, for a
    schedule of any length but one, the loop raises nothing, however
    long it runs: it returns or is still running. *)
Theorem loop_never_raises_under_contract {E : Collaborators}
    cfg times sh size p :
  initial_parameters cfg times sh size = Returned p ->
  length times <> 1 ->
  batch_contract ->
  shape_contract cfg ->
  forall fuel w o w',
    accumulate cfg (repeat (Scalar 0%Q) (length times)) fuel
      (initial_state p (length times)) w = (o, w') ->
    forall e, o <> Raised e.
Proof.
  intros Hp Hone Hb Hs fuel w o w' H.
  apply initial_parameters_Returned in Hp as (Hpre & Hnd & _).
  eapply accumulate_never_raises; [ | exact Hb | exact Hs | exact Hone
                                    | | | exact H].
  - apply repeat_length.
  - now apply initial_state_inv.
  - simpl. congruence.
Qed.

Lemma above_mask cfg snrs :
  Forall (fun s => (snr_threshold cfg <= s)%Q) snrs ->
  count_true (threshold_mask cfg snrs) = length snrs.
Proof.
  unfold count_true, threshold_mask.
  induction 1 as [|s l Hs _ IH]; simpl; auto.
  apply Qle_bool_iff in Hs. rewrite Hs. simpl. now rewrite IH.
Qed.

(** X12 (every candidate accepted).  Let the collaborators honour their
    contracts and every SNR the evaluation returns reach the threshold.
    Then, for a schedule of two or more injections, one iteration is
    enough: with any budget of at least one iteration the loop returns
    after a single request for [n_samples] candidates, all of them
    stored at rows [0, n_samples), with [num_injections = n_samples]
    and every column of Rejected empty. *)
Theorem all_accepted_fills_in_one_iteration {E : Collaborators}
    cfg times sh size p :
  initial_parameters cfg times sh size = Returned p ->
  2 <= length times ->
  batch_contract ->
  shape_contract cfg ->
  (forall projected,
     Forall (fun s => (snr_threshold cfg <= s)%Q)
       (compute_network_snr projected)) ->
  let n := length times in
  forall fuel w,
    exists st' w' t,
      accumulate cfg (repeat (Scalar 0%Q) n) (S fuel) (initial_state p n) w
        = (Returned st', w') /\
      w_trace w' = w_trace w ++ t /\
      batches_requested t = [n] /\
      rows_stored t = seq 0 n /\
      idx st' = n /\
      num_injections st' = n /\
      Forall (fun kc => snd kc = []) (rejected_params st').
Proof.
  intros Hp Htwo Hb Hs Hall n fuel w.
  apply initial_parameters_Returned in Hp as (Hpre & Hnd & _).
  fold n in Hpre.
  set (zeros := repeat (Scalar 0%Q) n).
  assert (Hz : length zeros = n) by apply repeat_length.
  pose proof (initial_state_inv Hpre Hnd) as Hinv.
  assert (Hg : (0 < n_samples (initial_state p n))%Z) by (simpl; lia).
  edestruct loop_body_progress
    as (st' & w' & snrs & Hbody & (projected & Hsn) & Hsl & Hi & Hn & _);
    [exact Hz | exact Hb | exact Hs | exact Hinv | exact Hg
     | simpl; lia |].
  simpl in Hsl, Hi, Hn. rewrite Nat2Z.id in Hsl.
  assert (Hna : count_true (threshold_mask cfg snrs) = n).
  { rewrite <- Hsl. apply above_mask. subst snrs. apply Hall. }
  rewrite Hna in Hi, Hn.
  destruct (loop_body_trace cfg zeros Hz w Hinv Hg Hbody)
    as (t & Ht & _ & Hreq & Hoff & Hrows).
  simpl in Hreq, Hrows. rewrite Hi, !Nat.sub_0_r in *.
  edestruct loop_body_counts as (Hnum & _); [exact Hb | exact Hbody |].
  simpl in Hnum. rewrite Nat2Z.id in Hnum.
  assert (Hled : ledger_inv st').
  { eapply loop_body_ledger_inv; [|exact Hbody]. apply empty_ledger_inv. }
  exists st', w', t. split.
  - cbn [accumulate].
    replace (0 <? n_samples (initial_state p n))%Z with true
      by (symmetry; apply Z.ltb_lt; exact Hg).
    unfold bind. fold zeros. rewrite Hbody.
    destruct fuel; simpl;
      replace (0 <? n_samples st')%Z with false
        by (symmetry; apply Z.ltb_ge; lia); reflexivity.
  - repeat split; auto.
    destruct Hled as [_ Hled]. eapply Forall_impl; [|exact Hled].
    intros [k c] Hc. simpl in *. destruct c; [reflexivity | simpl in Hc; lia].
Qed.

(** ** A schedule of one injection *)

Lemma accumulate_step {E : Collaborators} cfg zeros fuel st w :
  (0 < n_samples st)%Z ->
  accumulate cfg zeros (S fuel) st w
  = bind (loop_body cfg zeros st) (accumulate cfg zeros fuel) w.
Proof.
  intros Hg. cbn [accumulate].
  now replace (0 <? n_samples st)%Z with true
    by (symmetry; apply Z.ltb_lt; exact Hg).
Qed.

(** X13 (a single-injection segment cannot be generated).  When the
    schedule has exactly one injection time and no detector is stored
    under "dec", the first iteration's filter leaves the candidate
    without its declination, whatever the prior returned: for every
    budget of at least one iteration the loop raises [KeyError] on
    "dec" after one draw and one waveform generation, having stored
    nothing. *)
Theorem single_injection_schedule_fails {E : Collaborators}
    cfg times sh size p fuel w :
  initial_parameters cfg times sh size = Returned p ->
  length times = 1 ->
  ~ In "dec" (map lower (ifos cfg)) ->
  exists w',
    accumulate cfg (repeat (Scalar 0%Q) (length times)) (S fuel)
      (initial_state p (length times)) w = (Raised (KeyError "dec"), w') /\
    w_trace w' = w_trace w ++ [PriorSampled 1; WaveformsGenerated].
Proof.
  intros Hp Hone Hdec. rewrite Hone.
  apply initial_parameters_Returned in Hp as (_ & _ & Hkeys & _).
  assert (Hmem : dict_mem "dec" p = false).
  { destruct (dict_mem "dec" p) eqn:Hm; auto.
    apply dict_mem_keys, Hkeys in Hm.
    destruct Hm as [Hm | [Hm | Hm]]; try discriminate Hm. contradiction. }
  set (zeros := repeat (Scalar 0%Q) 1).
  assert (Hbody : exists w',
            loop_body cfg zeros (initial_state p 1) w
              = (Raised (KeyError "dec"), w') /\
            w_trace w' = w_trace w ++ [PriorSampled 1; WaveformsGenerated]).
  { unfold loop_body, bind.
    destruct (draw_candidates_run (initial_state p 1) w)
      as (params & r & -> & Hparams).
    simpl in Hparams.
    assert (Hnone : dict_get "dec" params = None)
      by (rewrite Hparams, restrict_get; simpl parameters; now rewrite Hmem).
    unfold evaluate, bind, log, lift, ret, getitem. rewrite Hnone.
    simpl. eexists. split; [reflexivity|]. simpl. now rewrite <- app_assoc. }
  destruct Hbody as (w' & Hb & Ht). exists w'. split; auto.
  rewrite accumulate_step by (simpl; lia).
  unfold bind. now rewrite Hb.
Qed.

(** * The further properties on concrete runs *)

Lemma background_path_is_least_entry_witness :
  dir_entries (background_dir Demo.cfg3) = Some ["b"; "a"] /\
  sorted ["b"; "a"] = ["a"; "b"] /\
  exists p,
    background_path (background_dir Demo.cfg3) = Returned p /\
    In p ["bg/b"; "bg/a"] /\
    forall q, In q ["bg/b"; "bg/a"] -> leb_true p q.
Proof.
  split; [reflexivity|]. split; [reflexivity|].
  destruct (background_path_is_least_entry (background_dir Demo.cfg3)
              eq_refl) as (_ & _ & Hleast & _).
  apply Hleast. discriminate.
Defined.

Lemma demo_main3 :
  main Demo.cfg3 10 Demo.fresh
  = (Returned ("out/waveforms.h5", "out/rejected-parameters.h5"),
     snd (main Demo.cfg3 10 Demo.fresh)).
Proof. vm_compute. reflexivity. Defined.


Lemma written_sets_are_consistent_witness :
  main Demo.cfg3 10 Demo.fresh
    = (Returned ("out/waveforms.h5", "out/rejected-parameters.h5"),
       snd (main Demo.cfg3 10 Demo.fresh)) /\
  exists rs rej t,
    w_trace (snd (main Demo.cfg3 10 Demo.fresh)) =
      t ++ [FileWritten "out/waveforms.h5" (Responses rs);
            FileWritten "out/rejected-parameters.h5" (Injections rej)] /\
    preallocated 3 (rs_columns rs) /\
    Forall (fun kc => 3 + length (snd kc) = rs_num_injections rs) rej.
Proof.
  split; [exact demo_main3|].
  destruct (written_sets_are_consistent Demo.cfg3 10 Demo.fresh demo_main3)
    as (m & rs & rej & t & Hm & Ht & Hrest).
  injection Hm as <-.
  destruct Hrest as (Hpre & _ & _ & _ & _ & _ & _ & Hrows).
  exists rs, rej, t. split; [exact Ht|]. split; [exact Hpre | exact Hrows].
Defined.

Lemma setup_errors_come_first_witness :
  (exists w',
     main Edge.no_shifts 10 Demo.fresh
       = (Raised (ValueError "max() arg is an empty sequence"), w') /\
     w_trace w' = []) /\
  (exists w',
     main Edge.zero_duration 10 Demo.fresh = (Raised ZeroDivisionError, w') /\
     w_trace w' = []) /\
  (exists w',
     main Edge.negative_size 10 Demo.fresh
       = (Raised (ValueError "negative dimensions are not allowed"), w') /\
     w_trace w' = []).
Proof.
  split; [|split].
  - exact (proj1 (setup_errors_come_first Edge.no_shifts 10 Demo.fresh)
             eq_refl).
  - apply (proj1 (proj2 (setup_errors_come_first Edge.zero_duration 10
                           Demo.fresh))); [discriminate | reflexivity].
  - apply (proj2 (proj2 (setup_errors_come_first Edge.negative_size 10
                           Demo.fresh))); [discriminate | discriminate
                                           | reflexivity].
Defined.

Lemma empty_schedule_writes_empty_sets_witness :
  py_max (shifts Edge.empty_schedule) = Returned 1%Q /\
  background_path (background_dir Edge.empty_schedule) = Returned "bg/a" /\
  exists w' rs,
    main Edge.empty_schedule 0 Demo.fresh
      = (Returned ("out/waveforms.h5", "out/rejected-parameters.h5"), w') /\
    w_trace w' =
      [PsdsLoaded "bg/a";
       FileWritten "out/waveforms.h5" (Responses rs);
       FileWritten "out/rejected-parameters.h5"
         (Injections (@empty_ledger Demo.collaborators))] /\
    preallocated 0 (rs_columns rs) /\
    rs_num_injections rs = 0.
Proof.
  split; [reflexivity|]. split; [reflexivity|].
  apply (@empty_schedule_writes_empty_sets Demo.collaborators
           Edge.empty_schedule 0 Demo.fresh 1%Q "bg/a").
  - reflexivity.
  - reflexivity.
  - vm_compute. discriminate.
  - reflexivity.
  - reflexivity.
Defined.

Lemma demo_reachable3 :
  reachable Demo.cfg3 Demo.zeros3 Demo.state3 Demo.fresh
    Demo.final3 (snd Demo.run3).
Proof. exact (proj1 (accumulate_reachable _ _ _ _ _ demo_run3)). Defined.



Lemma demo_contract_loud : @batch_contract Demo.collaborators.
Proof.
  split.
  - intros r k f Hf Hne.
    assert (Hin : In f ["mass_1"; "dec"; "psi"; "ra"]).
    { simpl in Hf. simpl.
      repeat destruct Hf as [<- | Hf]; first [tauto | congruence]. }
    exact (demo_draw_get r k Hin).
  - intros dec psi ra wf. simpl. now rewrite !length_map, length_seq.
Defined.

Lemma drawn_candidates_are_counted_witness :
  @batch_contract Demo.collaborators /\
  exists t,
    w_trace (snd Demo.run3) = w_trace Demo.fresh ++ t /\
    num_injections Demo.final3 = 0 + list_sum (batches_requested t).
Proof.
  split; [exact demo_contract_loud|].
  exact (drawn_candidates_are_counted demo_contract_loud demo_reachable3).
Defined.

Lemma single_draw_filter_witness :
  NoDup (dict_keys (parameters Demo.state1)) /\
  draw_candidates Demo.state1 Demo.fresh
    = (Returned (Demo.candidates_at Demo.state1 Demo.fresh),
       snd (draw_candidates Demo.state1 Demo.fresh)) /\
  dict_keys (Demo.candidates_at Demo.state1 Demo.fresh)
    = filter (fun k => dict_mem k (as_dict (fst (Demo.draw 0 1))))
        ["gps_time"; "shift"; "h1"; "l1"].
Proof.
  assert (Hnd : NoDup (dict_keys (parameters Demo.state1))).
  { assert (Hp : initial_parameters Demo.cfg1 Demo.times1
                   (shifts Demo.cfg1) Demo.size3 = Returned Demo.stored1)
      by (vm_compute; reflexivity).
    exact (proj1 (proj2 (initial_parameters_Returned _ _ _ _ Hp))). }
  split; [exact Hnd|].
  split; [exact (demo_drawn Demo.state1 Demo.fresh)|].
  exact (proj1 (proj2 (single_draw_filter Demo.state1 Demo.fresh Hnd
                         (demo_drawn Demo.state1 Demo.fresh))
                  eq_refl)).
Defined.


Lemma demo_draw_shape r k :
  Forall (fun kc => length (snd kc) = k) (as_dict (fst (Demo.draw r k))).
Proof.
  assert (Hm : length (Demo.masses r k) = k)
    by (unfold Demo.masses; now rewrite length_map, length_seq).
  assert (Ha : forall x, length (Demo.angles x k) = k)
    by (intros x; apply repeat_length).
  unfold Demo.draw. simpl fst.
  destruct (k =? 1); repeat constructor; simpl; auto.
Defined.

Lemma demo_shape_loud : @shape_contract Demo.collaborators Demo.cfg3.
Proof.
  split.
  - intros r k. exact (demo_draw_shape r k).
  - intros dec psi ra wf. simpl. split.
    + now rewrite length_map, length_seq.
    + apply Forall_forall. intros row Hrow.
      apply in_map_iff in Hrow as (i & <- & _). simpl. lia.
Defined.

Lemma loop_never_raises_under_contract_witness :
  initial_parameters Demo.cfg3 Demo.times3 (shifts Demo.cfg3) Demo.size3
    = Returned Demo.stored3 /\
  length Demo.times3 <> 1 /\
  @batch_contract Demo.collaborators /\
  @shape_contract Demo.collaborators Demo.cfg3 /\
  forall e, fst Demo.run3 <> Raised e.
Proof.
  split; [exact demo_stored3|]. split; [discriminate|].
  split; [exact demo_contract_loud|]. split; [exact demo_shape_loud|].
  exact (@loop_never_raises_under_contract Demo.collaborators Demo.cfg3
           Demo.times3 (shifts Demo.cfg3) Demo.size3 Demo.stored3
           demo_stored3 ltac:(discriminate) demo_contract_loud
           demo_shape_loud 10 Demo.fresh (fst Demo.run3) (snd Demo.run3)
           (surjective_pairing Demo.run3)).
Defined.

Lemma demo_shape_silent : @shape_contract Demo.silent Edge.all_accepted.
Proof.
  split.
  - intros r k. exact (demo_draw_shape r k).
  - intros dec psi ra wf. simpl. split.
    + now rewrite length_map, length_seq.
    + apply Forall_forall. intros row Hrow.
      apply in_map_iff in Hrow as (i & <- & _). simpl. lia.
Defined.

Lemma demo_all_reach projected :
  Forall (fun s => (snr_threshold Edge.all_accepted <= s)%Q)
    (@compute_network_snr Demo.silent projected).
Proof.
  apply Forall_forall. intros s Hs. simpl in Hs.
  apply in_map_iff in Hs as (row & <- & _). discriminate.
Defined.

Lemma all_accepted_fills_in_one_iteration_witness :
  initial_parameters Edge.all_accepted Demo.times3
    (shifts Edge.all_accepted) Demo.size3 = Returned Demo.stored3 /\
  2 <= length Demo.times3 /\
  exists st' w' t,
    accumulate Edge.all_accepted Demo.zeros3 1 Demo.state_silent
      Demo.fresh_silent = (Returned st', w') /\
    w_trace w' = w_trace Demo.fresh_silent ++ t /\
    batches_requested t = [3] /\
    rows_stored t = [0; 1; 2] /\
    idx st' = 3 /\
    num_injections st' = 3 /\
    Forall (fun kc => snd kc = []) (rejected_params st').
Proof.
  assert (Hp : initial_parameters Edge.all_accepted Demo.times3
                 (shifts Edge.all_accepted) Demo.size3
               = Returned Demo.stored3) by (vm_compute; reflexivity).
  split; [exact Hp|]. split; [simpl; lia|].
  exact (@all_accepted_fills_in_one_iteration Demo.silent Edge.all_accepted
           Demo.times3 (shifts Edge.all_accepted) Demo.size3 Demo.stored3
           Hp ltac:(simpl; lia) demo_contract demo_shape_silent
           demo_all_reach 0 Demo.fresh_silent).
Defined.

Lemma single_injection_schedule_fails_witness :
  initial_parameters Demo.cfg1 Demo.times1 (shifts Demo.cfg1) Demo.size3
    = Returned Demo.stored1 /\
  ~ In "dec" (map lower (ifos Demo.cfg1)) /\
  exists w',
    accumulate Demo.cfg1 (repeat (Scalar 0%Q) 1) 3 Demo.state1 Demo.fresh
      = (Raised (KeyError "dec"), w') /\
    w_trace w' = [PriorSampled 1; WaveformsGenerated].
Proof.
  assert (Hp : initial_parameters Demo.cfg1 Demo.times1 (shifts Demo.cfg1)
                 Demo.size3 = Returned Demo.stored1)
    by (vm_compute; reflexivity).
  assert (Hdec : ~ In "dec" (map lower (ifos Demo.cfg1)))
    by (intros [H | [H | []]]; discriminate H).
  split; [exact Hp|]. split; [exact Hdec|].
  exact (@single_injection_schedule_fails Demo.collaborators Demo.cfg1
           Demo.times1 (shifts Demo.cfg1) Demo.size3 Demo.stored1 2
           Demo.fresh Hp eq_refl Hdec).
Defined.
